(** * MP-SPDZ input generators: a shallow embedding and its properties

    The repository holds three command-line generators that write per-party
    input files for an MPC benchmark:

    - [gen_activation_inputs.py] (vectorised LTZ / sign test),
    - [gen_conv_inputs.py]       (one valid 2D convolution),
    - [gen_linear_inputs.py]     (a linear layer y = W x + b).

    Each [main()] is embedded below as a computation in a state-and-exception
    monad over a [world] that holds the state of Python's process-wide
    [random] module, the files and directories of the file system and the
    lines printed on standard output. *)

From Stdlib Require Import ZArith Lia Bool Ascii String List.
From Stdlib Require Import DecimalString DecimalZ DecimalPos DecimalFacts.
From stdpp Require Import gmap strings list.

Local Open Scope string_scope.
Local Open Scope Z_scope.

(* stdpp blocks the unfolding of string concatenation; the proofs below
   compute with it. *)
#[local] Arguments String.append _ _ : simpl nomatch.

(** * Part I: the model *)

(** ** Python values used by the generators *)

(** [str(v)] for an integer [v]: decimal digits, with a leading minus sign
    for negative numbers and ["0"] for zero. *)
Definition str (v : Z) : string := NilZero.string_of_int (Z.to_int v).

(** [sep.join(parts)]. *)
Fixpoint join (sep : string) (parts : list string) : string :=
  match parts with
  | [] => ""
  | [p] => p
  | p :: rest => p +:+ sep +:+ join sep rest
  end.

(** [1 << k] on Python's unbounded integers, for a shift count [k >= 0]
    (the generators only shift after the bit width was validated). *)
Definition shl1 (k : Z) : Z := Z.shiftl 1 k.

(** [os.path.join(d, f)] for two components, POSIX flavour: an absolute
    second component replaces the first, otherwise the two are glued with
    exactly one separator. *)
Definition ends_with_slash (d : string) : bool :=
  match String.get (String.length d - 1) d with
  | Some c => Ascii.eqb c "/"
  | None => false
  end.

Definition path_join (d f : string) : string :=
  match f with
  | String c _ =>
      if Ascii.eqb c "/" then f
      else if (String.eqb d "" || ends_with_slash d)%bool then d +:+ f
      else d +:+ "/" +:+ f
  | EmptyString =>
      if (String.eqb d "" || ends_with_slash d)%bool then d else d +:+ "/"
  end.

(** The thousands-separated rendering [f"{n:,}"]: the digits are grouped by
    three from the right, and a minus sign stays in front. *)
Fixpoint group3 (digits_rev : list ascii) : list ascii :=
  match digits_rev with
  | a :: b :: c :: ((_ :: _) as rest) => a :: b :: c :: ","%char :: group3 rest
  | _ => digits_rev
  end.

Definition fmt_digits (n : Z) : string :=
  string_of_list_ascii
    (rev (group3 (rev (list_ascii_of_string (str n))))).

Definition fmt_comma (n : Z) : string :=
  if n <? 0 then "-" +:+ fmt_digits (- n) else fmt_digits n.

(** ** The pseudo-random source

    [random.seed] and [random.randint] belong to Python's standard library,
    not to the repository.  The generators rely on two facts only: seeding
    fixes the whole generator state, and [randint(a, b)] returns an integer
    of the closed interval [a, b] while advancing that state. *)
Class RandomSource := {
  rng_state : Type;
  rng_seed : Z -> rng_state;
  rng_randint : Z -> Z -> rng_state -> Z * rng_state;
  rng_randint_range :
    forall a b s, a <= b -> a <= fst (rng_randint a b s) <= b
}.

(** ** The names of files

    Which file a path names is decided by the file system: the current
    directory, [.] and [..] components, repeated separators and links make
    different path strings name one file.  [file_of p] is the file (or
    directory) that the path [p] names; the generators create no link and
    move nothing, so the naming is the same throughout a run. *)
Class FileNames := {
  file_of : string -> string
}.

(** The paths of the directories on the way to [d], then [d] itself:
    what [os.makedirs(d, exist_ok=True)] makes sure exists. *)
Fixpoint ancestors_from (pre rest : string) : list string :=
  match rest with
  | EmptyString => []
  | String c rest' =>
      (if Ascii.eqb c "/" && negb (String.eqb pre "") then [pre] else [])
      ++ ancestors_from (pre +:+ String c "") rest'
  end.

Definition dir_chain (d : string) : list string :=
  ancestors_from "" d ++ [d].

(** ** Exceptions *)

(** The subclasses of Python's [Exception] that the modelled calls raise. *)
Inductive exception :=
  | ValueError
  | OSError
  | UnicodeEncodeError.

(** [SystemExit] derives from [BaseException] only, so an
    [except Exception] clause does not catch it. *)
Inductive exn :=
  | SystemExit (msg : string)
  | Exc (e : exception).

Inductive result (A : Type) :=
  | Ok (a : A)
  | Raise (e : exn).
Arguments Ok {A} a.
Arguments Raise {A} e.

(** What the environment does to the calls of the summary block:
    [Path(p).stat()] and [print(line)] may fail for reasons outside the
    program (a vanished file, a closed or non-UTF-8 standard output). *)
Record environment := {
  stat_error : string -> option exception;
  print_error : string -> option exception
}.

(** The exit status of the interpreter for [sys.exit(main())]: [main]
    returns [None], which exits with 0; an uncaught exception exits with 1. *)
Definition exit_status (r : result unit) : Z :=
  match r with
  | Ok _ => 0
  | Raise _ => 1
  end.

(** [action="store_true"] of argparse: the flag sets the value to [True],
    its absence leaves the default. *)
Definition store_true (given dflt : bool) : bool :=
  if given then true else dflt.

(** The value range computed by all three generators from the bit width
    and the signedness (the block is the same in the three files). *)
Definition value_range (bits : Z) (use_signed : bool) : Z * Z :=
  if use_signed then
    let lo := - shl1 (bits - 1) in
    let hi := shl1 (bits - 1) - 1 in
    (lo, hi)
  else
    let lo := 0 in
    let hi := shl1 bits - 1 in
    (lo, hi).

Section Runtime.
Context `{RandomSource} `{FileNames}.

(** ** The world a generator runs in *)
Record world := {
  rng : rng_state;               (* state of the [random] module *)
  fs : gmap string string;       (* regular files: file -> content *)
  dirs : gset string;            (* the directories that exist *)
  stdout : list string;          (* lines printed so far *)
  env : environment
}.

Definition set_rng (s : rng_state) (w : world) : world :=
  {| rng := s; fs := fs w; dirs := dirs w; stdout := stdout w; env := env w |}.
Definition set_fs (m : gmap string string) (w : world) : world :=
  {| rng := rng w; fs := m; dirs := dirs w; stdout := stdout w; env := env w |}.
Definition set_dirs (d : gset string) (w : world) : world :=
  {| rng := rng w; fs := fs w; dirs := d; stdout := stdout w; env := env w |}.
Definition set_stdout (o : list string) (w : world) : world :=
  {| rng := rng w; fs := fs w; dirs := dirs w; stdout := o; env := env w |}.
Definition set_env (e : environment) (w : world) : world :=
  {| rng := rng w; fs := fs w; dirs := dirs w; stdout := stdout w; env := e |}.

(** ** The monad: state passing with Python exceptions *)
Definition M (A : Type) : Type := world -> result A * world.

Definition ret {A} (a : A) : M A := fun w => (Ok a, w).

Definition bind {A B} (m : M A) (k : A -> M B) : M B :=
  fun w =>
    match m w with
    | (Ok a, w') => k a w'
    | (Raise e, w') => (Raise e, w')
    end.

Definition raise {A} (e : exn) : M A := fun w => (Raise e, w).

Local Notation "x <- m ;; k" := (bind m (fun x => k))
  (at level 100, m at next level, right associativity).
Local Notation "m ;;; k" := (bind m (fun _ => k))
  (at level 100, right associativity).

(** [try: body except Exception: handler]. *)
Definition try_except_Exception (body handler : M unit) : M unit :=
  fun w =>
    match body w with
    | (Raise (Exc _), w') => handler w'
    | other => other
    end.

(** [for _ in range(n): body]; [range(n)] is empty for [n <= 0]. *)
Fixpoint repeatM (k : nat) (body : M unit) : M unit :=
  match k with
  | O => ret tt
  | S k' => body ;;; repeatM k' body
  end.

Definition for_range (n : Z) (body : M unit) : M unit :=
  repeatM (Z.to_nat n) body.

(** The generator expression [(e for _ in range(n))], consumed in order. *)
Fixpoint collectM {A} (k : nat) (e : M A) : M (list A) :=
  match k with
  | O => ret []
  | S k' => x <- e ;; xs <- collectM k' e ;; ret (x :: xs)
  end.

Definition gen_range {A} (n : Z) (e : M A) : M (list A) :=
  collectM (Z.to_nat n) e.

(** ** Library calls

    The calls that write ([os.makedirs], [open], [write]) are modelled as
    succeeding: a failure of theirs (an empty [--dir], for which
    [os.makedirs] raises, a party path that names a directory, a full
    disk, a missing permission) is fatal to the run and is not recovered
    by the generators.  Every statement below about a run that passed the
    argument checks is a statement about the runs in which these calls
    succeed; passing the checks does not by itself make them succeed.  The
    calls of the summary block ([stat], [print]) fail when the environment
    says so. *)

(** [random.seed(a)]. *)
Definition random_seed (a : Z) : M unit :=
  fun w => (Ok tt, set_rng (rng_seed a) w).

(** [random.randint(a, b)]; an empty range raises [ValueError]. *)
Definition random_randint (a b : Z) : M Z :=
  fun w =>
    if a >? b then (Raise (Exc ValueError), w)
    else let '(v, s') := rng_randint a b (rng w) in (Ok v, set_rng s' w).

(** The directories [os.makedirs(d, exist_ok=True)] makes sure exist: [d]
    and every directory on the way to it. *)
Definition made_dirs (d : string) : gset string :=
  list_to_set (map file_of (dir_chain d)).

(** [os.makedirs(d, exist_ok=True)]. *)
Definition os_makedirs (d : string) : M unit :=
  fun w => (Ok tt, set_dirs (made_dirs d ∪ dirs w) w).

(** [open(p, "w")]: creates the file that [p] names, or truncates it.  The
    handle stands for that file, whatever path it was opened at. *)
Definition open_w (p : string) : M string :=
  fun w => (Ok (file_of p), set_fs (<[file_of p := ""]> (fs w)) w).

(** [f.write(s)] on a handle opened for writing: appends. *)
Definition write (f : string) (s : string) : M unit :=
  fun w => (Ok tt, set_fs (<[f := default "" (fs w !! f) +:+ s]> (fs w)) w).

(** [Path(p).stat().st_size]: the generators write ASCII only, so the size
    in bytes is the length of the content. *)
Definition stat_size (p : string) : M Z :=
  fun w =>
    match stat_error (env w) p with
    | Some e => (Raise (Exc e), w)
    | None =>
        match fs w !! file_of p with
        | Some c => (Ok (Z.of_nat (String.length c)), w)
        | None => (Raise (Exc OSError), w)
        end
    end.

(** [print(line)]. *)
Definition print (line : string) : M unit :=
  fun w =>
    match print_error (env w) line with
    | Some e => (Raise (Exc e), w)
    | None => (Ok tt, set_stdout (stdout w ++ [line])%list w)
    end.

End Runtime.

Notation "x <- m ;; k" := (bind m (fun x => k))
  (at level 100, m at next level, right associativity).
Notation "m ;;; k" := (bind m (fun _ => k))
  (at level 100, right associativity).

(** The line terminator ["\n"]. *)
Definition LF : ascii := "010"%char.
Definition nl : string := String LF "".

(** The message shared by the three bit-width checks. *)
Definition bits_message : string :=
  "bits must be between 1 and 31 for practical decimal I/O sizes.".

(** [f"[{lo}, {hi}]"]. *)
Definition rng_desc (lo hi : Z) : string :=
  "[" +:+ str lo +:+ ", " +:+ str hi +:+ "]".

(** * gen_activation_inputs.py *)
Module Activation.

(** The command line as argparse sees it: which options were given. *)
Record cli := {
  opt_len : option Z;
  opt_seed : option Z;
  opt_bits : option Z;
  flag_signed : bool;
  flag_unsigned : bool;
  opt_dir : option string;
  opt_p0_file : option string
}.

(** The namespace returned by [ap.parse_args()]. *)
Record args := {
  len : Z;
  seed : Z;
  bits : Z;
  signed : bool;
  unsigned : bool;
  dir : string;
  p0_file : string
}.

(** The [add_argument] declarations with their defaults.  [--signed] is a
    [store_true] flag whose default is already [True]. *)
Definition parse_args (c : cli) : args :=
  {| len := default 1024 (opt_len c);
     seed := default 42 (opt_seed c);
     bits := default 16 (opt_bits c);
     signed := store_true (flag_signed c) true;
     unsigned := store_true (flag_unsigned c) false;
     dir := default "Player-Data" (opt_dir c);
     p0_file := default "Input-P0-0" (opt_p0_file c) |}.

Definition use_signed (a : args) : bool := signed a && negb (unsigned a).

Section Main.
Context `{RandomSource} `{FileNames}.

Definition main (a : args) : M unit :=
  let LEN := len a in
  if LEN <=? 0 then raise (SystemExit "LEN must be positive.") else
  random_seed (seed a) ;;;
  if (bits a <=? 0) || (bits a >? 31) then raise (SystemExit bits_message) else
  let '(lo, hi) := value_range (bits a) (use_signed a) in
  let r := random_randint lo hi in
  os_makedirs (dir a) ;;;
  let p0_path := path_join (dir a) (p0_file a) in
  (f0 <- open_w p0_path ;;
   for_range LEN (v <- r ;; write f0 (str v +:+ nl))) ;;;
  try_except_Exception
    (s0 <- stat_size p0_path ;;
     print ("✔ Wrote Party0: " +:+ p0_path +:+ "  (" +:+ fmt_comma s0
            +:+ " bytes)") ;;;
     print ("   LEN=" +:+ str LEN +:+ "; value range: " +:+ rng_desc lo hi))
    (ret tt).

End Main.
End Activation.

(** * gen_conv_inputs.py *)
Module Conv.

Record cli := {
  opt_a_rows : option Z;
  opt_a_cols : option Z;
  opt_w_dim : option Z;
  opt_seed : option Z;
  opt_bits : option Z;
  flag_signed : bool;
  opt_dir : option string;
  opt_p0_file : option string;
  opt_p1_file : option string
}.

Record args := {
  a_rows : Z;
  a_cols : Z;
  w_dim : Z;
  seed : Z;
  bits : Z;
  signed : bool;
  dir : string;
  p0_file : string;
  p1_file : string
}.

Definition parse_args (c : cli) : args :=
  {| a_rows := default 8 (opt_a_rows c);
     a_cols := default 8 (opt_a_cols c);
     w_dim := default 2 (opt_w_dim c);
     seed := default 42 (opt_seed c);
     bits := default 16 (opt_bits c);
     signed := store_true (flag_signed c) false;
     dir := default "Player-Data" (opt_dir c);
     p0_file := default "Input-P0-0" (opt_p0_file c);
     p1_file := default "Input-P1-0" (opt_p1_file c) |}.

Definition positive_message : string :=
  "A_ROWS, A_COLS, and W_DIM must be positive.".

(** [f"W_DIM={W_DIM} must be <= A_ROWS={A_ROWS} and <= A_COLS={A_COLS} (valid conv)."] *)
Definition kernel_message (W_DIM A_ROWS A_COLS : Z) : string :=
  "W_DIM=" +:+ str W_DIM +:+ " must be <= A_ROWS=" +:+ str A_ROWS
  +:+ " and <= A_COLS=" +:+ str A_COLS +:+ " (valid conv).".

Section Main.
Context `{RandomSource} `{FileNames}.

Definition main (a : args) : M unit :=
  let A_ROWS := a_rows a in
  let A_COLS := a_cols a in
  let W_DIM := w_dim a in
  if (A_ROWS <=? 0) || (A_COLS <=? 0) || (W_DIM <=? 0)
  then raise (SystemExit positive_message) else
  if (W_DIM >? A_ROWS) || (W_DIM >? A_COLS)
  then raise (SystemExit (kernel_message W_DIM A_ROWS A_COLS)) else
  random_seed (seed a) ;;;
  if (bits a <=? 0) || (bits a >? 31) then raise (SystemExit bits_message) else
  let '(lo, hi) := value_range (bits a) (signed a) in
  let r := random_randint lo hi in
  os_makedirs (dir a) ;;;
  let p0_path := path_join (dir a) (p0_file a) in
  let p1_path := path_join (dir a) (p1_file a) in
  (f0 <- open_w p0_path ;;
   for_range A_ROWS
     (row <- gen_range A_COLS (v <- r ;; ret (str v)) ;;
      write f0 (join " " row) ;;;
      write f0 nl)) ;;;
  (f1 <- open_w p1_path ;;
   for_range W_DIM
     (row <- gen_range W_DIM (v <- r ;; ret (str v)) ;;
      write f1 (join " " row) ;;;
      write f1 nl)) ;;;
  try_except_Exception
    (s0 <- stat_size p0_path ;;
     s1 <- stat_size p1_path ;;
     let out_r := A_ROWS - W_DIM + 1 in
     let out_c := A_COLS - W_DIM + 1 in
     print ("✔ Wrote Party0: " +:+ p0_path +:+ "  (" +:+ fmt_comma s0
            +:+ " bytes)") ;;;
     print ("✔ Wrote Party1: " +:+ p1_path +:+ "  (" +:+ fmt_comma s1
            +:+ " bytes)") ;;;
     print ("   Shapes: A=" +:+ str A_ROWS +:+ "x" +:+ str A_COLS
            +:+ ", W=" +:+ str W_DIM +:+ "x" +:+ str W_DIM
            +:+ ", out=" +:+ str out_r +:+ "x" +:+ str out_c
            +:+ "; value range: " +:+ rng_desc lo hi))
    (ret tt).

End Main.
End Conv.

(** * gen_linear_inputs.py *)
Module Linear.

Record cli := {
  opt_n : option Z;
  opt_seed : option Z;
  opt_bits : option Z;
  flag_signed : bool;
  opt_dir : option string;
  opt_p0_file : option string;
  opt_p1_file : option string
}.

Record args := {
  n : Z;
  seed : Z;
  bits : Z;
  signed : bool;
  dir : string;
  p0_file : string;
  p1_file : string
}.

Definition parse_args (c : cli) : args :=
  {| n := default 2048 (opt_n c);
     seed := default 42 (opt_seed c);
     bits := default 16 (opt_bits c);
     signed := store_true (flag_signed c) false;
     dir := default "Player-Data" (opt_dir c);
     p0_file := default "Input-P0-0" (opt_p0_file c);
     p1_file := default "Input-P1-0" (opt_p1_file c) |}.

Section Main.
Context `{RandomSource} `{FileNames}.

Definition main (a : args) : M unit :=
  let n := n a in
  random_seed (seed a) ;;;
  if (bits a <=? 0) || (bits a >? 31) then raise (SystemExit bits_message) else
  let '(lo, hi) := value_range (bits a) (signed a) in
  let r := random_randint lo hi in
  os_makedirs (dir a) ;;;
  let p0_path := path_join (dir a) (p0_file a) in
  let p1_path := path_join (dir a) (p1_file a) in
  (f0 <- open_w p0_path ;;
   row <- gen_range n (v <- r ;; ret (str v)) ;;
   write f0 (join " " row) ;;;
   write f0 nl) ;;;
  (f1 <- open_w p1_path ;;
   for_range n
     (row <- gen_range n (v <- r ;; ret (str v)) ;;
      write f1 (join " " row) ;;;
      write f1 nl) ;;;
   row <- gen_range n (v <- r ;; ret (str v)) ;;
   write f1 (join " " row) ;;;
   write f1 nl) ;;;
  try_except_Exception
    (s0 <- stat_size p0_path ;;
     s1 <- stat_size p1_path ;;
     print ("✔ Wrote Party0: " +:+ p0_path +:+ "  (" +:+ fmt_comma s0
            +:+ " bytes)") ;;;
     print ("✔ Wrote Party1: " +:+ p1_path +:+ "  (" +:+ fmt_comma s1
            +:+ " bytes)") ;;;
     print ("   Shapes: x=" +:+ str n +:+ ", W=" +:+ str n +:+ "x" +:+ str n
            +:+ ", b=" +:+ str n +:+ "; value range: " +:+ rng_desc lo hi))
    (ret tt).

End Main.
End Linear.

(** * Scenarios *)

(** One of the three generators together with its parsed arguments. *)
Inductive scenario :=
  | Threshold (a : Activation.args)
  | Convolution (a : Conv.args)
  | LinearLayer (a : Linear.args).

Definition run `{RandomSource} `{FileNames} (sc : scenario) : M unit :=
  match sc with
  | Threshold a => Activation.main a
  | Convolution a => Conv.main a
  | LinearLayer a => Linear.main a
  end.

(** The shape dimensions a scenario is given. *)
Definition shape_dims (sc : scenario) : list Z :=
  match sc with
  | Threshold a => [Activation.len a]
  | Convolution a => [Conv.a_rows a; Conv.a_cols a; Conv.w_dim a]
  | LinearLayer a => [Linear.n a]
  end.

Definition bit_width (sc : scenario) : Z :=
  match sc with
  | Threshold a => Activation.bits a
  | Convolution a => Conv.bits a
  | LinearLayer a => Linear.bits a
  end.

Definition signedness (sc : scenario) : bool :=
  match sc with
  | Threshold a => Activation.use_signed a
  | Convolution a => Conv.signed a
  | LinearLayer a => Linear.signed a
  end.

Definition prng_seed (sc : scenario) : Z :=
  match sc with
  | Threshold a => Activation.seed a
  | Convolution a => Conv.seed a
  | LinearLayer a => Linear.seed a
  end.

(** The paths of the party files, party 0 first. *)
Definition party_paths (sc : scenario) : list string :=
  match sc with
  | Threshold a => [path_join (Activation.dir a) (Activation.p0_file a)]
  | Convolution a =>
      [path_join (Conv.dir a) (Conv.p0_file a);
       path_join (Conv.dir a) (Conv.p1_file a)]
  | LinearLayer a =>
      [path_join (Linear.dir a) (Linear.p0_file a);
       path_join (Linear.dir a) (Linear.p1_file a)]
  end.

(** The checks each [main] makes on its arguments, as a predicate. *)
Definition bits_ok (b : Z) : bool := (1 <=? b) && (b <=? 31).

(** The shape checks: [LEN], or [A_ROWS], [A_COLS], [W_DIM] and the kernel
    fitting the input; the linear generator checks nothing about [n]. *)
Definition shape_ok (sc : scenario) : bool :=
  match sc with
  | Threshold a => 0 <? Activation.len a
  | Convolution a =>
      (0 <? Conv.a_rows a) && (0 <? Conv.a_cols a) && (0 <? Conv.w_dim a)
      && (Conv.w_dim a <=? Conv.a_rows a) && (Conv.w_dim a <=? Conv.a_cols a)
  | LinearLayer a => true
  end.

(** The arguments that pass every check of their [main]. *)
Definition accepted (sc : scenario) : bool :=
  shape_ok sc && bits_ok (bit_width sc).

(** The message of the first check that fails, in the order the checks are
    made; the bit-width message stands for arguments that fail no earlier
    check. *)
Definition rejection_message (sc : scenario) : string :=
  match sc with
  | Threshold a =>
      if Activation.len a <=? 0 then "LEN must be positive."
      else bits_message
  | Convolution a =>
      if (Conv.a_rows a <=? 0) || (Conv.a_cols a <=? 0) || (Conv.w_dim a <=? 0)
      then Conv.positive_message
      else if (Conv.w_dim a >? Conv.a_rows a) || (Conv.w_dim a >? Conv.a_cols a)
      then Conv.kernel_message (Conv.w_dim a) (Conv.a_rows a) (Conv.a_cols a)
      else bits_message
  | LinearLayer a => bits_message
  end.

(** The generators that check their shape dimensions for positivity: the
    threshold and the convolution generator.  The linear generator reads
    [n] and never tests it. *)
Definition checks_positivity (sc : scenario) : bool :=
  match sc with
  | Threshold _ | Convolution _ => true
  | LinearLayer _ => false
  end.

(** * Reading a party file back

    The consumer's view of a party file: lines, each ended by one line
    feed, holding decimal integers separated by single spaces. *)

(** [s.split(c)]: the pieces between the occurrences of [c]. *)
Fixpoint split_on (c : ascii) (s : string) : list string :=
  match s with
  | EmptyString => [""]
  | String a s' =>
      if Ascii.eqb a c then "" :: split_on c s'
      else match split_on c s' with
           | [] => [String a ""]
           | piece :: pieces => String a piece :: pieces
           end
  end.

(** The lines of a text whose every line, the last one included, ends
    with a line feed; [None] when the last line is not terminated. *)
Definition file_lines (content : string) : option (list string) :=
  let pieces := split_on LF content in
  if String.eqb (List.last pieces "") "" then Some (removelast pieces)
  else None.

Definition parse_int (token : string) : option Z :=
  option_map Z.of_int (NilZero.int_of_string token).

Fixpoint parse_all {A B} (f : A -> option B) (xs : list A) : option (list B) :=
  match xs with
  | [] => Some []
  | x :: rest =>
      match f x, parse_all f rest with
      | Some y, Some ys => Some (y :: ys)
      | _, _ => None
      end
  end.

(** An empty line holds no integer. *)
Definition parse_line (line : string) : option (list Z) :=
  match line with
  | EmptyString => Some []
  | _ => parse_all parse_int (split_on " " line)
  end.

Definition parse_file (content : string) : option (list (list Z)) :=
  match file_lines content with
  | Some lines => parse_all parse_line lines
  | None => None
  end.

(** * Text of the party files *)

Fixpoint occurs (c : ascii) (s : string) : bool :=
  match s with
  | EmptyString => false
  | String a s' => Ascii.eqb a c || occurs c s'
  end.

(** The lines of a text: every line followed by a line feed. *)
Fixpoint unlines (lines : list string) : string :=
  match lines with
  | [] => ""
  | l :: rest => l +:+ nl +:+ unlines rest
  end.

Definition is_digit_or_minus (a : ascii) : bool :=
  match a with
  | "0" | "1" | "2" | "3" | "4" | "5" | "6" | "7" | "8" | "9" | "-" => true
  | _ => false
  end%char.

Fixpoint all_chars (p : ascii -> bool) (s : string) : bool :=
  match s with
  | EmptyString => true
  | String a s' => p a && all_chars p s'
  end.

(** One row of a party file: [" ".join(str(v) for v in row)]. *)
Definition render_row (row : list Z) : string := join " " (map str row).

(** A whole party file: one rendered row per line. *)
Definition render_rows (rows : list (list Z)) : string :=
  unlines (map render_row rows).

(** A text of exactly [rows] lines, each ended by one line feed and each
    holding exactly [cols] decimal integers separated by single spaces, in
    the form [str] prints them. *)
Definition file_shape_ok (content : string) (rows cols : Z) : bool :=
  match parse_file content with
  | Some M =>
      (Z.of_nat (length M) =? rows)
      && forallb (fun row => Z.of_nat (length row) =? cols) M
      && String.eqb content (render_rows M)
  | None => false
  end.

(** * The stream of drawn values and what a run leaves behind *)

Section Outcomes.
Context `{RandomSource} `{FileNames}.

(** The first [k] values of [random.randint(a, b)] from state [s], with the
    state reached after them. *)
Fixpoint draws (a b : Z) (k : nat) (s : rng_state) : list Z * rng_state :=
  match k with
  | O => ([], s)
  | S k' =>
      let '(v, s1) := rng_randint a b s in
      let '(vs, s2) := draws a b k' s1 in
      (v :: vs, s2)
  end.

(** [rows] successive rows of [cols] draws each. *)
Fixpoint draw_rows (a b : Z) (rows cols : nat) (s : rng_state)
  : list (list Z) * rng_state :=
  match rows with
  | O => ([], s)
  | S r =>
      let '(row, s1) := draws a b cols s in
      let '(rest, s2) := draw_rows a b r cols s1 in
      (row :: rest, s2)
  end.

(** One pass of a row loop: [f.write(" ".join(...)); f.write("\n")]. *)
Definition write_row (r : M Z) (f : string) (cols : nat) : M unit :=
  row <- collectM cols (v <- r ;; ret (str v)) ;;
  write f (join " " row) ;;;
  write f nl.

(** [w'] differs from [w] at most in what was printed. *)
Definition only_printed (w w' : world) : Prop :=
  rng w' = rng w /\ fs w' = fs w /\ dirs w' = dirs w /\ env w' = env w.

(** A computation that touches neither the files nor the generator and
    raises nothing but subclasses of [Exception]. *)
Definition quiet {A} (m : M A) : Prop :=
  forall w, exists r w',
    m w = (r, w') /\ (forall msg, r <> Raise (SystemExit msg))
    /\ only_printed w w'.

(** The range a scenario samples from. *)
Definition value_bounds (sc : scenario) : Z * Z :=
  value_range (bit_width sc) (signedness sc).

(** The rows of each party file, party 0 first, as drawn from the stream
    seeded with the scenario's seed. *)
Definition party_data (sc : scenario) : list (list (list Z)) :=
  let lo := fst (value_bounds sc) in
  let hi := snd (value_bounds sc) in
  let s0 := rng_seed (prng_seed sc) in
  match sc with
  | Threshold a =>
      [map (fun v => [v])
           (fst (draws lo hi (Z.to_nat (Activation.len a)) s0))]
  | Convolution a =>
      let A := draw_rows lo hi (Z.to_nat (Conv.a_rows a))
                 (Z.to_nat (Conv.a_cols a)) s0 in
      let W := draw_rows lo hi (Z.to_nat (Conv.w_dim a))
                 (Z.to_nat (Conv.w_dim a)) (snd A) in
      [fst A; fst W]
  | LinearLayer a =>
      let n := Z.to_nat (Linear.n a) in
      let x := draws lo hi n s0 in
      let W := draw_rows lo hi n n (snd x) in
      let b := draws lo hi n (snd W) in
      [[fst x]; (fst W ++ [fst b])%list]
  end.

(** The number of values a scenario draws. *)
Definition draw_count (sc : scenario) : nat :=
  match sc with
  | Threshold a => Z.to_nat (Activation.len a)
  | Convolution a =>
      Z.to_nat (Conv.a_rows a) * Z.to_nat (Conv.a_cols a)
      + Z.to_nat (Conv.w_dim a) * Z.to_nat (Conv.w_dim a)
  | LinearLayer a =>
      let n := Z.to_nat (Linear.n a) in n + (n * n + n)
  end.

(** Writing files one after the other: a later file replaces an earlier
    one at the same path. *)
Definition write_all (files : list (string * string))
    (m : gmap string string) : gmap string string :=
  fold_left (fun m pc => <[fst pc := snd pc]> m) files m.

(** The files that the party paths name, party 0 first. *)
Definition party_targets (sc : scenario) : list string :=
  map file_of (party_paths sc).

(** The files of an accepted run, with their contents. *)
Definition party_files (sc : scenario) : list (string * string) :=
  combine (party_targets sc) (map render_rows (party_data sc)).

(** The directory a scenario writes into. *)
Definition output_dir (sc : scenario) : string :=
  match sc with
  | Threshold a => Activation.dir a
  | Convolution a => Conv.dir a
  | LinearLayer a => Linear.dir a
  end.

(** The world when the last party file has been closed, before the
    summary block is entered. *)
Definition written_world (sc : scenario) (w : world) : world :=
  {| rng := snd (draws (fst (value_bounds sc)) (snd (value_bounds sc))
                   (draw_count sc) (rng_seed (prng_seed sc)));
     fs := write_all (party_files sc) (fs w);
     dirs := made_dirs (output_dir sc) ∪ dirs w;
     stdout := stdout w;
     env := env w |}.

(** The body of the [try] block that ends each [main]: the sizes of the
    party files are read with [stat], then the lines are printed. *)
Definition summary (sc : scenario) : M unit :=
  let lo := fst (value_bounds sc) in
  let hi := snd (value_bounds sc) in
  match sc with
  | Threshold a =>
      let LEN := Activation.len a in
      let p0_path := path_join (Activation.dir a) (Activation.p0_file a) in
      s0 <- stat_size p0_path ;;
      print ("✔ Wrote Party0: " +:+ p0_path +:+ "  (" +:+ fmt_comma s0
             +:+ " bytes)") ;;;
      print ("   LEN=" +:+ str LEN +:+ "; value range: " +:+ rng_desc lo hi)
  | Convolution a =>
      let A_ROWS := Conv.a_rows a in
      let A_COLS := Conv.a_cols a in
      let W_DIM := Conv.w_dim a in
      let p0_path := path_join (Conv.dir a) (Conv.p0_file a) in
      let p1_path := path_join (Conv.dir a) (Conv.p1_file a) in
      s0 <- stat_size p0_path ;;
      s1 <- stat_size p1_path ;;
      let out_r := A_ROWS - W_DIM + 1 in
      let out_c := A_COLS - W_DIM + 1 in
      print ("✔ Wrote Party0: " +:+ p0_path +:+ "  (" +:+ fmt_comma s0
             +:+ " bytes)") ;;;
      print ("✔ Wrote Party1: " +:+ p1_path +:+ "  (" +:+ fmt_comma s1
             +:+ " bytes)") ;;;
      print ("   Shapes: A=" +:+ str A_ROWS +:+ "x" +:+ str A_COLS
             +:+ ", W=" +:+ str W_DIM +:+ "x" +:+ str W_DIM
             +:+ ", out=" +:+ str out_r +:+ "x" +:+ str out_c
             +:+ "; value range: " +:+ rng_desc lo hi)
  | LinearLayer a =>
      let n := Linear.n a in
      let p0_path := path_join (Linear.dir a) (Linear.p0_file a) in
      let p1_path := path_join (Linear.dir a) (Linear.p1_file a) in
      s0 <- stat_size p0_path ;;
      s1 <- stat_size p1_path ;;
      print ("✔ Wrote Party0: " +:+ p0_path +:+ "  (" +:+ fmt_comma s0
             +:+ " bytes)") ;;;
      print ("✔ Wrote Party1: " +:+ p1_path +:+ "  (" +:+ fmt_comma s1
             +:+ " bytes)") ;;;
      print ("   Shapes: x=" +:+ str n +:+ ", W=" +:+ str n +:+ "x" +:+ str n
             +:+ ", b=" +:+ str n +:+ "; value range: " +:+ rng_desc lo hi)
  end.

(** The size in bytes of the file that [p] names. *)
Definition file_size (m : gmap string string) (p : string) : Z :=
  Z.of_nat (String.length (default "" (m !! file_of p))).

(** The lines a summary prints when nothing fails, for the files [m]. *)
Definition summary_lines (sc : scenario) (m : gmap string string)
  : list string :=
  let lo := fst (value_bounds sc) in
  let hi := snd (value_bounds sc) in
  match sc with
  | Threshold a =>
      let p0_path := path_join (Activation.dir a) (Activation.p0_file a) in
      [ "✔ Wrote Party0: " +:+ p0_path +:+ "  ("
          +:+ fmt_comma (file_size m p0_path) +:+ " bytes)";
        "   LEN=" +:+ str (Activation.len a) +:+ "; value range: "
          +:+ rng_desc lo hi ]
  | Convolution a =>
      let p0_path := path_join (Conv.dir a) (Conv.p0_file a) in
      let p1_path := path_join (Conv.dir a) (Conv.p1_file a) in
      [ "✔ Wrote Party0: " +:+ p0_path +:+ "  ("
          +:+ fmt_comma (file_size m p0_path) +:+ " bytes)";
        "✔ Wrote Party1: " +:+ p1_path +:+ "  ("
          +:+ fmt_comma (file_size m p1_path) +:+ " bytes)";
        "   Shapes: A=" +:+ str (Conv.a_rows a) +:+ "x" +:+ str (Conv.a_cols a)
          +:+ ", W=" +:+ str (Conv.w_dim a) +:+ "x" +:+ str (Conv.w_dim a)
          +:+ ", out=" +:+ str (Conv.a_rows a - Conv.w_dim a + 1)
          +:+ "x" +:+ str (Conv.a_cols a - Conv.w_dim a + 1)
          +:+ "; value range: " +:+ rng_desc lo hi ]
  | LinearLayer a =>
      let p0_path := path_join (Linear.dir a) (Linear.p0_file a) in
      let p1_path := path_join (Linear.dir a) (Linear.p1_file a) in
      [ "✔ Wrote Party0: " +:+ p0_path +:+ "  ("
          +:+ fmt_comma (file_size m p0_path) +:+ " bytes)";
        "✔ Wrote Party1: " +:+ p1_path +:+ "  ("
          +:+ fmt_comma (file_size m p1_path) +:+ " bytes)";
        "   Shapes: x=" +:+ str (Linear.n a) +:+ ", W=" +:+ str (Linear.n a)
          +:+ "x" +:+ str (Linear.n a) +:+ ", b=" +:+ str (Linear.n a)
          +:+ "; value range: " +:+ rng_desc lo hi ]
  end.

End Outcomes.

(** * Concrete inputs

    A concrete random source:

    A small linear congruential generator, used to run the generators on
    concrete arguments. *)
Definition lcg_next (s : Z) : Z := (s * 1103515245 + 12345) mod 2147483648.

Definition lcg_randint (a b : Z) (s : Z) : Z * Z :=
  let s' := lcg_next s in (a + s' mod (b - a + 1), s').

Definition lcg : RandomSource.
Proof.
  refine {| rng_state := Z;
            rng_seed := fun a => a;
            rng_randint := lcg_randint;
            rng_randint_range := _ |}.
  intros a b s Hab. unfold lcg_randint. cbn [fst].
  pose proof (Z.mod_pos_bound (lcg_next s) (b - a + 1)). lia.
Defined.

(** A concrete naming of files: [os.path.normpath].  It stands for a file
    system without links in which every path is taken from the same
    current directory, so that two paths name one file exactly when they
    have the same normal form. *)
Definition normpath_step (absolute : bool) (new_comps : list string)
    (comp : string) : list string :=
  if String.eqb comp "" || String.eqb comp "." then new_comps
  else if negb (String.eqb comp "..")
          || (negb absolute && match new_comps with [] => true | _ => false end)
          || match new_comps with top :: _ => String.eqb top ".." | [] => false end
  then comp :: new_comps
  else match new_comps with
       | _ :: rest => rest
       | [] => []
       end.

Definition normpath (path : string) : string :=
  if String.eqb path "" then "."
  else
    let initial_slashes :=
      if String.prefix "//" path && negb (String.prefix "///" path) then "//"
      else if String.prefix "/" path then "/"
      else "" in
    let absolute := negb (String.eqb initial_slashes "") in
    let comps :=
      rev (fold_left (normpath_step absolute) (split_on "/" path) []) in
    let path' := initial_slashes +:+ join "/" comps in
    if String.eqb path' "" then "." else path'.

Definition posix_names : FileNames := {| file_of := normpath |}.

Definition no_faults : environment :=
  {| stat_error := fun _ => None; print_error := fun _ => None |}.

(** A fresh machine: no files, nothing printed, an unseeded generator. *)
Definition fresh_world : @world lcg :=
  {| rng := 7 : @rng_state lcg; fs := ∅; dirs := ∅; stdout := [];
     env := no_faults |}.

(** The command line [--signed --unsigned --bits 8]. *)
Definition both_flags : Activation.cli :=
  {| Activation.opt_len := None; Activation.opt_seed := None;
     Activation.opt_bits := Some 8;
     Activation.flag_signed := true; Activation.flag_unsigned := true;
     Activation.opt_dir := None; Activation.opt_p0_file := None |}.

(** The command lines [--len 3 --bits 8 --signed --unsigned] and
    [--len 3 --bits 8 --signed]. *)
Definition both_flags_len_3 : Activation.cli :=
  {| Activation.opt_len := Some 3; Activation.opt_seed := None;
     Activation.opt_bits := Some 8;
     Activation.flag_signed := true; Activation.flag_unsigned := true;
     Activation.opt_dir := None; Activation.opt_p0_file := None |}.

Definition signed_flag_len_3 : Activation.cli :=
  {| Activation.opt_len := Some 3; Activation.opt_seed := None;
     Activation.opt_bits := Some 8;
     Activation.flag_signed := true; Activation.flag_unsigned := false;
     Activation.opt_dir := None; Activation.opt_p0_file := None |}.

(** The convolution arguments [--bits 32], everything else by default. *)
Definition conv_bits_32 : Conv.args :=
  Conv.parse_args
    {| Conv.opt_a_rows := None; Conv.opt_a_cols := None; Conv.opt_w_dim := None;
       Conv.opt_seed := None; Conv.opt_bits := Some 32;
       Conv.flag_signed := false; Conv.opt_dir := None;
       Conv.opt_p0_file := None; Conv.opt_p1_file := None |}.

(** The spec's example: [--w-dim 5 --a-rows 4]. *)
Definition conv_kernel_5_rows_4 : Conv.args :=
  Conv.parse_args
    {| Conv.opt_a_rows := Some 4; Conv.opt_a_cols := None;
       Conv.opt_w_dim := Some 5;
       Conv.opt_seed := None; Conv.opt_bits := None;
       Conv.flag_signed := false; Conv.opt_dir := None;
       Conv.opt_p0_file := None; Conv.opt_p1_file := None |}.

(** The threshold arguments [--len 0]. *)
Definition threshold_len_0 : Activation.args :=
  Activation.parse_args
    {| Activation.opt_len := Some 0; Activation.opt_seed := None;
       Activation.opt_bits := None;
       Activation.flag_signed := false; Activation.flag_unsigned := false;
       Activation.opt_dir := None; Activation.opt_p0_file := None |}.

(** The linear-layer arguments [--n 0], everything else by default. *)
Definition linear_n_0 : Linear.args :=
  Linear.parse_args
    {| Linear.opt_n := Some 0; Linear.opt_seed := None;
       Linear.opt_bits := None; Linear.flag_signed := false;
       Linear.opt_dir := None; Linear.opt_p0_file := None;
       Linear.opt_p1_file := None |}.

(** The spec's concrete scenario:
    [--seed 42 --bits 4 --a-rows 3 --a-cols 3 --w-dim 2], unsigned. *)
Definition conv_3x3_2 : Conv.args :=
  Conv.parse_args
    {| Conv.opt_a_rows := Some 3; Conv.opt_a_cols := Some 3;
       Conv.opt_w_dim := Some 2;
       Conv.opt_seed := Some 42; Conv.opt_bits := Some 4;
       Conv.flag_signed := false; Conv.opt_dir := None;
       Conv.opt_p0_file := None; Conv.opt_p1_file := None |}.

(** An environment in which every [stat] fails. *)
Definition stat_fails : environment :=
  {| stat_error := fun _ => Some OSError; print_error := fun _ => None |}.

(** An environment in which nothing can be printed. *)
Definition print_fails : environment :=
  {| stat_error := fun _ => None;
     print_error := fun _ => Some UnicodeEncodeError |}.

(** A machine on which the generator ran before: a stale party file, an
    advanced generator state, earlier output, failing [stat] calls. *)
Definition used_world : @world lcg :=
  {| rng := 123456 : @rng_state lcg;
     fs := {[ "Player-Data/Input-P0-0" := "stale" ]};
     dirs := {[ "Player-Data" ]};
     stdout := ["earlier output"];
     env := stat_fails |}.

(** The linear-layer arguments [--n 2 --bits 4 --signed]. *)
Definition linear_n_2 : Linear.args :=
  Linear.parse_args
    {| Linear.opt_n := Some 2; Linear.opt_seed := None;
       Linear.opt_bits := Some 4; Linear.flag_signed := true;
       Linear.opt_dir := None; Linear.opt_p0_file := None;
       Linear.opt_p1_file := None |}.

(** The threshold arguments [--len 5 --bits 8]. *)
Definition threshold_len_5 : Activation.args :=
  Activation.parse_args
    {| Activation.opt_len := Some 5; Activation.opt_seed := None;
       Activation.opt_bits := Some 8;
       Activation.flag_signed := false; Activation.flag_unsigned := false;
       Activation.opt_dir := None; Activation.opt_p0_file := None |}.

(** The concrete scenario with both parties given the same file:
    [--seed 42 --bits 4 --a-rows 3 --a-cols 3 --w-dim 2 --p1-file Input-P0-0]. *)
Definition conv_same_file : Conv.args :=
  Conv.parse_args
    {| Conv.opt_a_rows := Some 3; Conv.opt_a_cols := Some 3;
       Conv.opt_w_dim := Some 2;
       Conv.opt_seed := Some 42; Conv.opt_bits := Some 4;
       Conv.flag_signed := false; Conv.opt_dir := None;
       Conv.opt_p0_file := None; Conv.opt_p1_file := Some "Input-P0-0" |}.

(** The linear-layer arguments
    [--n 2 --bits 4 --signed --p1-file Input-P0-0]. *)
Definition linear_same_file : Linear.args :=
  Linear.parse_args
    {| Linear.opt_n := Some 2; Linear.opt_seed := None;
       Linear.opt_bits := Some 4; Linear.flag_signed := true;
       Linear.opt_dir := None; Linear.opt_p0_file := None;
       Linear.opt_p1_file := Some "Input-P0-0" |}.

(** Two spellings of one file:
    [--seed 42 --bits 4 --a-rows 3 --a-cols 3 --w-dim 2
     --p1-file ./Input-P0-0]. *)
Definition conv_dot_alias : Conv.args :=
  Conv.parse_args
    {| Conv.opt_a_rows := Some 3; Conv.opt_a_cols := Some 3;
       Conv.opt_w_dim := Some 2;
       Conv.opt_seed := Some 42; Conv.opt_bits := Some 4;
       Conv.flag_signed := false; Conv.opt_dir := None;
       Conv.opt_p0_file := None; Conv.opt_p1_file := Some "./Input-P0-0" |}.

(** [--n 2 --bits 4 --signed --p1-file ../Player-Data/Input-P0-0]. *)
Definition linear_updir_alias : Linear.args :=
  Linear.parse_args
    {| Linear.opt_n := Some 2; Linear.opt_seed := None;
       Linear.opt_bits := Some 4; Linear.flag_signed := true;
       Linear.opt_dir := None; Linear.opt_p0_file := None;
       Linear.opt_p1_file := Some "../Player-Data/Input-P0-0" |}.

(** The threshold arguments [--len 2 --bits 8 --dir out/run1]. *)
Definition threshold_nested_dir : Activation.args :=
  Activation.parse_args
    {| Activation.opt_len := Some 2; Activation.opt_seed := None;
       Activation.opt_bits := Some 8;
       Activation.flag_signed := false; Activation.flag_unsigned := false;
       Activation.opt_dir := Some "out/run1";
       Activation.opt_p0_file := None |}.

(** The characters a party file is made of: decimal digits, the minus
    sign, the space and the line feed. *)
Definition is_file_char (a : ascii) : bool :=
  is_digit_or_minus a || Ascii.eqb a " " || Ascii.eqb a LF.

(** The linear-layer arguments [--n -3 --bits 8]. *)
Definition linear_n_minus_3 : Linear.args :=
  Linear.parse_args
    {| Linear.opt_n := Some (-3); Linear.opt_seed := None;
       Linear.opt_bits := Some 8; Linear.flag_signed := false;
       Linear.opt_dir := None; Linear.opt_p0_file := None;
       Linear.opt_p1_file := None |}.

(** * Part II: lemmas and theorems *)

(** ** The Python values and the reader, on examples *)

Example str_examples :
  str 0 = "0" /\ str 15 = "15" /\ str (-32768) = "-32768".
Proof. repeat split; reflexivity. Qed.

Example join_examples :
  join " " ["1"; "22"; "3"] = "1 22 3" /\ join " " [] = "".
Proof. split; reflexivity. Qed.

Example path_join_examples :
  path_join "Player-Data" "Input-P0-0" = "Player-Data/Input-P0-0"
  /\ path_join "out/" "x" = "out/x"
  /\ path_join "out" "/tmp/x" = "/tmp/x".
Proof. repeat split; reflexivity. Qed.

Example fmt_comma_examples :
  fmt_comma 0 = "0" /\ fmt_comma 999 = "999" /\ fmt_comma 1000 = "1,000"
  /\ fmt_comma 1234567 = "1,234,567"
  /\ fmt_comma (-123) = "-123" /\ fmt_comma (-1234) = "-1,234".
Proof. repeat split; reflexivity. Qed.

Example dir_chain_examples :
  dir_chain "Player-Data" = ["Player-Data"]
  /\ dir_chain "out/run1" = ["out"; "out/run1"]
  /\ dir_chain "/a/b/" = ["/a"; "/a/b"; "/a/b/"].
Proof. repeat split; reflexivity. Qed.

Example normpath_examples :
  normpath "Player-Data/Input-P0-0" = "Player-Data/Input-P0-0"
  /\ normpath "Player-Data/./Input-P0-0" = "Player-Data/Input-P0-0"
  /\ normpath "Player-Data/../Player-Data/Input-P0-0"
     = "Player-Data/Input-P0-0"
  /\ normpath "/a/b/" = "/a/b"
  /\ normpath "" = "."
  /\ normpath "a/../.." = "..".
Proof. repeat split; reflexivity. Qed.

Example parse_file_example :
  parse_file ("1 -2 3" +:+ nl +:+ "40 5 6" +:+ nl)
  = Some [[1; -2; 3]; [40; 5; 6]].
Proof. reflexivity. Qed.

Example parse_file_unterminated :
  parse_file ("1 2" +:+ nl +:+ "3 4") = None.
Proof. reflexivity. Qed.

Example parse_file_double_space :
  parse_file ("1  2" +:+ nl) = None.
Proof. reflexivity. Qed.

Example parse_file_empty_line :
  parse_file nl = Some [[]].
Proof. reflexivity. Qed.

(** ** Facts about strings *)

Lemma append_assoc (s1 s2 s3 : string) :
  (s1 +:+ s2) +:+ s3 = s1 +:+ (s2 +:+ s3).
Proof. induction s1 as [|a s1 IH]; simpl; [reflexivity | now rewrite IH]. Qed.

Lemma append_empty_r (s : string) : s +:+ "" = s.
Proof. induction s as [|a s IH]; simpl; [reflexivity | now rewrite IH]. Qed.

Lemma occurs_append c s1 s2 :
  occurs c (s1 +:+ s2) = occurs c s1 || occurs c s2.
Proof.
  induction s1 as [|a s1 IH]; simpl; [reflexivity|].
  rewrite IH. now rewrite orb_assoc.
Qed.

Lemma all_chars_occurs p c s :
  all_chars p s = true -> p c = false -> occurs c s = false.
Proof.
  intros Hall Hc. induction s as [|a s IH]; simpl in *; [reflexivity|].
  apply andb_prop in Hall as [Ha Hs]. rewrite (IH Hs), orb_false_r.
  destruct (Ascii.eqb_spec a c) as [->|]; congruence.
Qed.

Lemma uint_digits (d : Decimal.uint) :
  all_chars is_digit_or_minus (NilEmpty.string_of_uint d) = true.
Proof. induction d; simpl; auto. Qed.

Lemma str_digits (v : Z) : all_chars is_digit_or_minus (str v) = true.
Proof.
  unfold str. destruct (Z.to_int v) as [d|d]; simpl.
  - destruct d; try reflexivity; apply (uint_digits (_ d)).
  - destruct d; try reflexivity; apply (uint_digits (_ d)).
Qed.

Lemma str_no_space (v : Z) : occurs " " (str v) = false.
Proof. apply (all_chars_occurs _ _ _ (str_digits v)). reflexivity. Qed.

Lemma str_no_LF (v : Z) : occurs LF (str v) = false.
Proof. apply (all_chars_occurs _ _ _ (str_digits v)). reflexivity. Qed.

Lemma to_int_proper (v : Z) :
  Z.to_int v <> Decimal.Pos Decimal.Nil /\ Z.to_int v <> Decimal.Neg Decimal.Nil.
Proof.
  destruct v as [|p|p]; simpl; split; try discriminate;
    intros [= Hp]; now apply (DecimalPos.Unsigned.to_uint_nonnil p).
Qed.

(** Reading back what [str] printed gives the number printed. *)
Lemma parse_int_str (v : Z) : parse_int (str v) = Some v.
Proof.
  unfold parse_int, str. destruct (to_int_proper v) as [Hp Hn].
  rewrite (NilZero.isi _ Hp Hn). simpl. now rewrite DecimalZ.of_to.
Qed.

Lemma split_on_absent c s : occurs c s = false -> split_on c s = [s].
Proof.
  induction s as [|a s IH]; simpl; [reflexivity|].
  intros Hc. apply orb_false_elim in Hc as [Ha Hs].
  now rewrite Ha, (IH Hs).
Qed.

Lemma split_on_first c s1 s2 :
  occurs c s1 = false ->
  split_on c (s1 +:+ String c s2) = s1 :: split_on c s2.
Proof.
  induction s1 as [|a s1 IH]; simpl.
  - intros _. now rewrite Ascii.eqb_refl.
  - intros Hc. apply orb_false_elim in Hc as [Ha Hs].
    now rewrite Ha, (IH Hs).
Qed.

Lemma split_on_join c (parts : list string) :
  parts <> [] ->
  Forall (fun p => occurs c p = false) parts ->
  split_on c (join (String c "") parts) = parts.
Proof.
  induction parts as [|p rest IH]; [congruence|].
  intros _ Hall. inversion Hall as [|? ? Hp Hrest]; subst.
  destruct rest as [|q rest'].
  - simpl. now apply split_on_absent.
  - change (join (String c "") (p :: q :: rest'))
      with (p +:+ String c "" +:+ join (String c "") (q :: rest')).
    change (p +:+ String c "" +:+ join (String c "") (q :: rest'))
      with (p +:+ String c (join (String c "") (q :: rest'))).
    rewrite (split_on_first _ _ _ Hp). f_equal. now apply IH.
Qed.

Lemma split_on_unlines (lines : list string) :
  Forall (fun l => occurs LF l = false) lines ->
  split_on LF (unlines lines) = (lines ++ [""])%list.
Proof.
  induction 1 as [|l rest Hl _ IH]; simpl; [reflexivity|].
  change (l +:+ nl +:+ unlines rest) with (l +:+ String LF (unlines rest)).
  now rewrite (split_on_first _ _ _ Hl), IH.
Qed.

Lemma file_lines_unlines (lines : list string) :
  Forall (fun l => occurs LF l = false) lines ->
  file_lines (unlines lines) = Some lines.
Proof.
  intros Hl. unfold file_lines. rewrite (split_on_unlines _ Hl).
  rewrite last_last, removelast_last. reflexivity.
Qed.

Lemma str_nonempty (v : Z) : str v <> "".
Proof.
  intros Hv. pose proof (parse_int_str v) as Hp. rewrite Hv in Hp.
  discriminate Hp.
Qed.

Lemma join_cons_nonempty sep p rest : p <> "" -> join sep (p :: rest) <> "".
Proof.
  intros Hp. destruct p as [|a p]; [congruence|].
  destruct rest; simpl; discriminate.
Qed.

Lemma occurs_join_str c (row : list Z) :
  is_digit_or_minus c = false -> c <> " "%char ->
  occurs c (render_row row) = false.
Proof.
  intros Hc Hsp. unfold render_row.
  induction row as [|v rest IH]; [reflexivity|].
  assert (Hv : occurs c (str v) = false)
    by (apply (all_chars_occurs _ _ _ (str_digits v)), Hc).
  destruct rest as [|v' rest']; [exact Hv|].
  change (join " " (map str (v :: v' :: rest')))
    with (str v +:+ " " +:+ join " " (map str (v' :: rest'))).
  assert (Hs : occurs c " " = false).
  { cbn [occurs]. destruct (Ascii.eqb_spec " " c); [congruence | reflexivity]. }
  now rewrite !occurs_append, Hv, Hs, IH.
Qed.

Lemma parse_all_map_str (row : list Z) :
  parse_all parse_int (map str row) = Some row.
Proof.
  induction row as [|v rest IH]; simpl; [reflexivity|].
  now rewrite parse_int_str, IH.
Qed.

(** A rendered row reads back as the row. *)
Lemma parse_line_render_row (row : list Z) :
  parse_line (render_row row) = Some row.
Proof.
  destruct row as [|v rest]; [reflexivity|].
  unfold parse_line.
  destruct (render_row (v :: rest)) eqn:Hr.
  - exfalso. revert Hr. apply join_cons_nonempty, str_nonempty.
  - rewrite <- Hr. unfold render_row.
    rewrite (split_on_join " "%char); [apply parse_all_map_str | discriminate |].
    apply List.Forall_forall. intros t Ht. apply in_map_iff in Ht as [u [<- _]].
    apply str_no_space.
Qed.

(** A rendered party file reads back as its rows. *)
Lemma parse_file_render_rows (rows : list (list Z)) :
  parse_file (render_rows rows) = Some rows.
Proof.
  unfold parse_file, render_rows.
  rewrite file_lines_unlines.
  - induction rows as [|row rest IH]; simpl; [reflexivity|].
    now rewrite parse_line_render_row, IH.
  - apply List.Forall_forall. intros l Hl. apply in_map_iff in Hl as [row [<- _]].
    apply occurs_join_str; [reflexivity | discriminate].
Qed.

(** ** The stream of drawn values *)

Section DrawsFacts.
Context `{RandomSource} `{FileNames}.

Lemma draws_S a b k s :
  draws a b (S k) s =
  (fst (rng_randint a b s) :: fst (draws a b k (snd (rng_randint a b s))),
   snd (draws a b k (snd (rng_randint a b s)))).
Proof.
  simpl. destruct (rng_randint a b s) as [v s1]. simpl.
  now destruct (draws a b k s1).
Qed.

Lemma draw_rows_S a b r c s :
  draw_rows a b (S r) c s =
  (fst (draws a b c s) :: fst (draw_rows a b r c (snd (draws a b c s))),
   snd (draw_rows a b r c (snd (draws a b c s)))).
Proof.
  simpl. destruct (draws a b c s) as [row s1]. simpl.
  now destruct (draw_rows a b r c s1).
Qed.

Lemma draws_length a b k s : length (fst (draws a b k s)) = k.
Proof.
  revert s. induction k as [|k IH]; intros s; [reflexivity|].
  rewrite draws_S. simpl. now rewrite IH.
Qed.

Lemma draws_range a b k s :
  a <= b -> Forall (fun v => a <= v <= b) (fst (draws a b k s)).
Proof.
  intros Hab. revert s. induction k as [|k IH]; intros s.
  - constructor.
  - rewrite draws_S. simpl. constructor; [now apply rng_randint_range | apply IH].
Qed.

Lemma draws_add a b k1 k2 s :
  draws a b (k1 + k2) s =
  ((fst (draws a b k1 s) ++ fst (draws a b k2 (snd (draws a b k1 s))))%list,
   snd (draws a b k2 (snd (draws a b k1 s)))).
Proof.
  revert s. induction k1 as [|k1 IH]; intros s.
  - simpl. now destruct (draws a b k2 s).
  - change (S k1 + k2)%nat with (S (k1 + k2)).
    rewrite !draws_S. simpl. now rewrite IH.
Qed.

Lemma draw_rows_length a b r c s : length (fst (draw_rows a b r c s)) = r.
Proof.
  revert s. induction r as [|r IH]; intros s; [reflexivity|].
  rewrite draw_rows_S. simpl. now rewrite IH.
Qed.

Lemma draw_rows_width a b r c s :
  Forall (fun row => length row = c) (fst (draw_rows a b r c s)).
Proof.
  revert s. induction r as [|r IH]; intros s.
  - constructor.
  - rewrite draw_rows_S. simpl. constructor; [apply draws_length | apply IH].
Qed.

Lemma draw_rows_range a b r c s :
  a <= b ->
  Forall (Forall (fun v => a <= v <= b)) (fst (draw_rows a b r c s)).
Proof.
  intros Hab. revert s. induction r as [|r IH]; intros s.
  - constructor.
  - rewrite draw_rows_S. simpl. constructor; [now apply draws_range | apply IH].
Qed.

(** Row after row, the rows are the stream itself. *)
Lemma draw_rows_flat a b r c s :
  draw_rows a b r c s =
  (fst (draw_rows a b r c s), snd (draws a b (r * c) s))
  /\ concat (fst (draw_rows a b r c s)) = fst (draws a b (r * c) s).
Proof.
  revert s. induction r as [|r IH]; intros s.
  - split; reflexivity.
  - change (S r * c)%nat with (c + r * c)%nat.
    rewrite draw_rows_S, draws_add. simpl.
    destruct (IH (snd (draws a b c s))) as [Hs Hc].
    rewrite Hc. split; [|reflexivity].
    f_equal. rewrite Hs at 1. reflexivity.
Qed.

Lemma draw_rows_state a b r c s :
  snd (draw_rows a b r c s) = snd (draws a b (r * c) s).
Proof. destruct (draw_rows_flat a b r c s) as [Hs _]. now rewrite Hs. Qed.

Lemma draw_rows_concat a b r c s :
  concat (fst (draw_rows a b r c s)) = fst (draws a b (r * c) s).
Proof. apply draw_rows_flat. Qed.

End DrawsFacts.

(** ** Running the library calls and the loops *)

Section ExecutionFacts.
Context `{RandomSource} `{FileNames}.

Lemma world_eta (w : world) :
  {| rng := rng w; fs := fs w; dirs := dirs w; stdout := stdout w;
     env := env w |} = w.
Proof. now destruct w. Qed.

Lemma bind_ok {A B} (m : M A) (k : A -> M B) w a w' :
  m w = (Ok a, w') -> bind m k w = k a w'.
Proof. intros Hm. unfold bind. now rewrite Hm. Qed.

Lemma bind_raise {A B} (m : M A) (k : A -> M B) w e w' :
  m w = (Raise e, w') -> bind m k w = (Raise e, w').
Proof. intros Hm. unfold bind. now rewrite Hm. Qed.

Lemma random_randint_ok a b w :
  a <= b ->
  random_randint a b w =
  (Ok (fst (rng_randint a b (rng w))),
   set_rng (snd (rng_randint a b (rng w))) w).
Proof.
  intros Hab. unfold random_randint.
  destruct (Z.gtb_spec a b) as [Hgt|_]; [lia|].
  now destruct (rng_randint a b (rng w)).
Qed.

(** The generator expression [str(r()) for _ in range(k)] draws [k] values
    in order and yields their renderings. *)
Lemma collect_draws a b k w :
  a <= b ->
  collectM k (v <- random_randint a b ;; ret (str v)) w =
  (Ok (map str (fst (draws a b k (rng w)))),
   set_rng (snd (draws a b k (rng w))) w).
Proof.
  intros Hab. revert w. induction k as [|k IH]; intros w.
  - simpl. unfold ret, set_rng. now rewrite world_eta.
  - cbn [collectM].
    rewrite (bind_ok _ _ w (str (fst (rng_randint a b (rng w))))
               (set_rng (snd (rng_randint a b (rng w))) w)).
    2:{ now rewrite (bind_ok _ _ _ _ _ (random_randint_ok a b w Hab)). }
    rewrite (bind_ok _ _ _ _ _ (IH _)).
    rewrite draws_S. reflexivity.
Qed.

Lemma write_row_run a b f cols w old :
  a <= b ->
  fs w !! f = Some old ->
  write_row (random_randint a b) f cols w =
  (Ok tt,
   {| rng := snd (draws a b cols (rng w));
      fs := <[f := old +:+ render_row (fst (draws a b cols (rng w))) +:+ nl]>
              (fs w);
      dirs := dirs w; stdout := stdout w; env := env w |}).
Proof.
  intros Hab Hold. unfold write_row.
  rewrite (bind_ok _ _ _ _ _ (collect_draws a b cols w Hab)).
  unfold bind, write, set_fs, set_rng, render_row. simpl.
  rewrite Hold. simpl. rewrite lookup_insert_eq. simpl.
  rewrite insert_insert_eq. now rewrite append_assoc.
Qed.

(** The row loop appends the rendering of the rows it draws. *)
Lemma repeat_write_row a b f cols k w old :
  a <= b ->
  fs w !! f = Some old ->
  repeatM k (write_row (random_randint a b) f cols) w =
  (Ok tt,
   {| rng := snd (draw_rows a b k cols (rng w));
      fs := <[f := old +:+ render_rows (fst (draw_rows a b k cols (rng w)))]>
              (fs w);
      dirs := dirs w; stdout := stdout w; env := env w |}).
Proof.
  intros Hab. revert w old. induction k as [|k IH]; intros w old Hold.
  - simpl. unfold ret, render_rows. simpl. rewrite append_empty_r.
    rewrite (insert_id _ _ _ Hold). now rewrite world_eta.
  - cbn [repeatM].
    rewrite (bind_ok _ _ _ _ _ (write_row_run a b f cols w old Hab Hold)).
    rewrite (IH _ (old +:+ render_row (fst (draws a b cols (rng w))) +:+ nl)).
    2:{ simpl. apply lookup_insert_eq. }
    rewrite draw_rows_S. simpl. rewrite insert_insert_eq.
    unfold render_rows. simpl. now rewrite !append_assoc.
Qed.

(** The loop of the threshold generator: [f.write(f"{r()}\n")]. *)
Lemma repeat_write_value a b f k w old :
  a <= b ->
  fs w !! f = Some old ->
  repeatM k (v <- random_randint a b ;; write f (str v +:+ nl)) w =
  (Ok tt,
   {| rng := snd (draws a b k (rng w));
      fs := <[f := old +:+ unlines (map str (fst (draws a b k (rng w))))]>
              (fs w);
      dirs := dirs w; stdout := stdout w; env := env w |}).
Proof.
  intros Hab. revert w old. induction k as [|k IH]; intros w old Hold.
  - simpl. unfold ret. rewrite append_empty_r.
    rewrite (insert_id _ _ _ Hold). now rewrite world_eta.
  - cbn [repeatM].
    rewrite (bind_ok _ _ w tt
      {| rng := snd (rng_randint a b (rng w));
         fs := <[f := old +:+ str (fst (rng_randint a b (rng w))) +:+ nl]> (fs w);
         dirs := dirs w; stdout := stdout w; env := env w |}).
    2:{ rewrite (bind_ok _ _ _ _ _ (random_randint_ok a b w Hab)).
        unfold write, set_fs, set_rng. simpl. now rewrite Hold. }
    rewrite (IH _ (old +:+ str (fst (rng_randint a b (rng w))) +:+ nl)).
    2:{ simpl. apply lookup_insert_eq. }
    rewrite draws_S. simpl. rewrite insert_insert_eq.
    now rewrite !append_assoc.
Qed.

End ExecutionFacts.

(** ** The value range *)

Lemma shl1_pow2 (k : Z) : 0 <= k -> shl1 k = 2 ^ k.
Proof. intros Hk. unfold shl1. rewrite Z.shiftl_1_l. reflexivity. Qed.

Lemma bits_ok_iff (b : Z) : bits_ok b = true <-> 1 <= b <= 31.
Proof. unfold bits_ok. rewrite andb_true_iff, !Z.leb_le. tauto. Qed.

Lemma bits_check_iff (b : Z) :
  (b <=? 0) || (b >? 31) = negb (bits_ok b).
Proof.
  unfold bits_ok.
  destruct (Z.leb_spec b 0), (Z.gtb_spec b 31), (Z.leb_spec 1 b),
    (Z.leb_spec b 31); simpl; try reflexivity; lia.
Qed.

Lemma value_range_pow2 (bits : Z) (use_signed : bool) :
  1 <= bits <= 31 ->
  value_range bits use_signed =
  if use_signed then (- 2 ^ (bits - 1), 2 ^ (bits - 1) - 1)
  else (0, 2 ^ bits - 1).
Proof.
  intros Hb. unfold value_range.
  rewrite !shl1_pow2 by lia. reflexivity.
Qed.

Lemma value_range_ordered (bits : Z) (use_signed : bool) :
  1 <= bits <= 31 ->
  fst (value_range bits use_signed) <= snd (value_range bits use_signed).
Proof.
  intros Hb. rewrite (value_range_pow2 _ _ Hb).
  assert (0 < 2 ^ (bits - 1)) by (apply Z.pow_pos_nonneg; lia).
  assert (0 < 2 ^ bits) by (apply Z.pow_pos_nonneg; lia).
  destruct use_signed; simpl; lia.
Qed.

(** ** The summary block *)

Section SummaryFacts.
Context `{RandomSource} `{FileNames}.

Lemma only_printed_refl w : only_printed w w.
Proof. repeat split. Qed.

Lemma only_printed_trans w1 w2 w3 :
  only_printed w1 w2 -> only_printed w2 w3 -> only_printed w1 w3.
Proof.
  intros (? & ? & ? & ?) (? & ? & ? & ?). repeat split; congruence.
Qed.

Lemma quiet_ret {A} (a : A) : quiet (ret a).
Proof.
  intros w. exists (Ok a), w. repeat split. discriminate.
Qed.

Lemma quiet_bind {A B} (m : M A) (k : A -> M B) :
  quiet m -> (forall a, quiet (k a)) -> quiet (bind m k).
Proof.
  intros Hm Hk w. destruct (Hm w) as (r & w1 & Hrun & Hr & H1).
  destruct r as [a|e].
  - destruct (Hk a w1) as (r2 & w2 & Hrun2 & Hr2 & H2).
    exists r2, w2. rewrite (bind_ok _ _ _ _ _ Hrun).
    split; [assumption|]. split; [assumption|].
    eapply only_printed_trans; eassumption.
  - exists (Raise e), w1. rewrite (bind_raise _ _ _ _ _ Hrun).
    split; [reflexivity|]. split; [|assumption].
    intros msg [= ->]. now apply (Hr msg).
Qed.

Lemma quiet_stat_size p : quiet (stat_size p).
Proof.
  intros w. unfold stat_size.
  destruct (stat_error (env w) p) as [e|].
  - exists (Raise (Exc e)), w. repeat split. discriminate.
  - destruct (fs w !! file_of p) as [c|].
    + exists (Ok (Z.of_nat (String.length c))), w. repeat split. discriminate.
    + exists (Raise (Exc OSError)), w. repeat split. discriminate.
Qed.

Lemma quiet_print line : quiet (print line).
Proof.
  intros w. unfold print.
  destruct (print_error (env w) line) as [e|].
  - exists (Raise (Exc e)), w. repeat split. discriminate.
  - eexists (Ok tt), _. repeat split. discriminate.
Qed.

(** [try: body except Exception: pass] around a quiet body always
    completes, and leaves the files as they were. *)
Lemma try_except_quiet (body : M unit) w :
  quiet body ->
  exists w', try_except_Exception body (ret tt) w = (Ok tt, w')
             /\ only_printed w w'.
Proof.
  intros Hq. destruct (Hq w) as (r & w1 & Hrun & Hr & H1).
  unfold try_except_Exception. rewrite Hrun.
  destruct r as [[]|[msg|e]].
  - exists w1. split; [reflexivity | exact H1].
  - exfalso. now apply (Hr msg).
  - exists w1. split; [reflexivity | exact H1].
Qed.

End SummaryFacts.

Ltac quiet_tac :=
  repeat first [ apply quiet_bind | intros ? | apply quiet_stat_size
               | apply quiet_print | apply quiet_ret ].

(** ** What an accepted run leaves behind *)

Section ResultsFacts.
Context `{RandomSource} `{FileNames}.

Lemma render_rows_singletons (vs : list Z) :
  render_rows (map (fun v => [v]) vs) = unlines (map str vs).
Proof.
  unfold render_rows. induction vs as [|v vs IH]; simpl; [reflexivity|].
  now rewrite IH.
Qed.

Lemma render_rows_app (r1 r2 : list (list Z)) :
  render_rows (r1 ++ r2) = render_rows r1 +:+ render_rows r2.
Proof.
  unfold render_rows. induction r1 as [|row r1 IH]; simpl; [reflexivity|].
  now rewrite IH, !append_assoc.
Qed.

Lemma accepted_bits sc : accepted sc = true -> 1 <= bit_width sc <= 31.
Proof.
  intros Hacc. apply bits_ok_iff.
  unfold accepted in Hacc. now apply andb_prop in Hacc as [_ Hb].
Qed.

Lemma accepted_bounds sc :
  accepted sc = true -> fst (value_bounds sc) <= snd (value_bounds sc).
Proof. intros Hacc. now apply value_range_ordered, accepted_bits. Qed.

Lemma threshold_accepted a w :
  accepted (Threshold a) = true ->
  exists w',
    Activation.main a w = (Ok tt, w')
    /\ fs w' = write_all (party_files (Threshold a)) (fs w)
    /\ dirs w' = made_dirs (Activation.dir a) ∪ dirs w
    /\ env w' = env w.
Proof.
  intros Hacc. pose proof (accepted_bounds _ Hacc) as Hlohi.
  unfold value_bounds in Hlohi. simpl in Hlohi.
  unfold accepted in Hacc. cbn [shape_ok bit_width] in Hacc.
  apply andb_prop in Hacc as [Hlen Hbits]. apply Z.ltb_lt in Hlen.
  unfold Activation.main.
  replace (Activation.len a <=? 0) with false by (symmetry; apply Z.leb_gt; lia).
  rewrite (bind_ok _ _ w tt (set_rng (rng_seed (Activation.seed a)) w))
    by reflexivity.
  rewrite bits_check_iff, Hbits. cbn [negb].
  destruct (value_range (Activation.bits a) (Activation.use_signed a))
    as [lo hi] eqn:Hrange.
  simpl in Hlohi.
  rewrite (bind_ok _ _ _ tt
    (set_dirs (made_dirs (Activation.dir a) ∪ dirs w)
       (set_rng (rng_seed (Activation.seed a)) w))) by reflexivity.
  set (p0 := path_join (Activation.dir a) (Activation.p0_file a)).
  match goal with
  | |- context [bind (bind (open_w p0) ?k) ?rest] =>
      rewrite (bind_ok (bind (open_w p0) k) rest _ tt
        {| rng := snd (draws lo hi (Z.to_nat (Activation.len a))
                         (rng_seed (Activation.seed a)));
           fs := <[file_of p0 := unlines (map str
                    (fst (draws lo hi (Z.to_nat (Activation.len a))
                            (rng_seed (Activation.seed a)))))]> (fs w);
           dirs := made_dirs (Activation.dir a) ∪ dirs w;
           stdout := stdout w; env := env w |})
  end.
  2:{ rewrite (bind_ok (open_w p0) _ _ (file_of p0) _ eq_refl).
      unfold for_range.
      rewrite (repeat_write_value lo hi (file_of p0) _ _ "" Hlohi)
        by (simpl; apply lookup_insert_eq).
      simpl. now rewrite insert_insert_eq. }
  match goal with
  | |- context [try_except_Exception ?body _ ?w1] =>
      destruct (try_except_quiet body w1) as (w' & Hrun & Hr & Hf & Hd & He);
        [quiet_tac|]
  end.
  exists w'. split; [exact Hrun|].
  rewrite Hf, Hd, He. simpl.
  unfold party_files, party_data, value_bounds. simpl.
  rewrite Hrange. simpl. rewrite render_rows_singletons.
  repeat split.
Qed.

(** A party file written by a row loop inside [with open(p, "w") as f]. *)
Lemma open_rows_run a b p rows cols w :
  a <= b ->
  (f <- open_w p ;;
   for_range rows
     (row <- gen_range cols (v <- random_randint a b ;; ret (str v)) ;;
      write f (join " " row) ;;;
      write f nl)) w =
  (Ok tt,
   {| rng := snd (draw_rows a b (Z.to_nat rows) (Z.to_nat cols) (rng w));
      fs := <[file_of p := render_rows (fst (draw_rows a b (Z.to_nat rows)
                                       (Z.to_nat cols) (rng w)))]> (fs w);
      dirs := dirs w; stdout := stdout w; env := env w |}).
Proof.
  intros Hab. rewrite (bind_ok (open_w p) _ _ (file_of p) _ eq_refl).
  unfold for_range, gen_range.
  change (repeatM (Z.to_nat rows)
            (write_row (random_randint a b) (file_of p) (Z.to_nat cols))
            (set_fs (<[file_of p := ""]> (fs w)) w) = 
          (Ok tt,
           {| rng := snd (draw_rows a b (Z.to_nat rows) (Z.to_nat cols) (rng w));
              fs := <[file_of p := render_rows (fst (draw_rows a b (Z.to_nat rows)
                                       (Z.to_nat cols) (rng w)))]> (fs w);
              dirs := dirs w; stdout := stdout w; env := env w |})).
  rewrite (repeat_write_row a b (file_of p) _ _ _ "" Hab)
    by (simpl; apply lookup_insert_eq).
  simpl. now rewrite insert_insert_eq.
Qed.

Lemma convolution_accepted a w :
  accepted (Convolution a) = true ->
  exists w',
    Conv.main a w = (Ok tt, w')
    /\ fs w' = write_all (party_files (Convolution a)) (fs w)
    /\ dirs w' = made_dirs (Conv.dir a) ∪ dirs w
    /\ env w' = env w.
Proof.
  intros Hacc. pose proof (accepted_bounds _ Hacc) as Hlohi.
  unfold value_bounds in Hlohi. simpl in Hlohi.
  unfold accepted in Hacc. cbn [shape_ok bit_width] in Hacc.
  rewrite !andb_true_iff in Hacc.
  destruct Hacc as [[[[[Hr Hc] Hw] Hwr] Hwc] Hbits].
  apply Z.ltb_lt in Hr, Hc, Hw. apply Z.leb_le in Hwr, Hwc.
  unfold Conv.main.
  replace (Conv.a_rows a <=? 0) with false by (symmetry; apply Z.leb_gt; lia).
  replace (Conv.a_cols a <=? 0) with false by (symmetry; apply Z.leb_gt; lia).
  replace (Conv.w_dim a <=? 0) with false by (symmetry; apply Z.leb_gt; lia).
  replace (Conv.w_dim a >? Conv.a_rows a) with false
    by (symmetry; rewrite Z.gtb_ltb; apply Z.ltb_ge; lia).
  replace (Conv.w_dim a >? Conv.a_cols a) with false
    by (symmetry; rewrite Z.gtb_ltb; apply Z.ltb_ge; lia).
  cbn [orb].
  rewrite (bind_ok _ _ w tt (set_rng (rng_seed (Conv.seed a)) w))
    by reflexivity.
  rewrite bits_check_iff, Hbits. cbn [negb].
  destruct (value_range (Conv.bits a) (Conv.signed a)) as [lo hi] eqn:Hrange.
  simpl in Hlohi.
  rewrite (bind_ok _ _ _ tt
    (set_dirs (made_dirs (Conv.dir a) ∪ dirs w)
       (set_rng (rng_seed (Conv.seed a)) w))) by reflexivity.
  set (p0 := path_join (Conv.dir a) (Conv.p0_file a)).
  set (p1 := path_join (Conv.dir a) (Conv.p1_file a)).
  rewrite (bind_ok _ _ _ _ _ (open_rows_run lo hi p0 _ _ _ Hlohi)).
  rewrite (bind_ok _ _ _ _ _ (open_rows_run lo hi p1 _ _ _ Hlohi)).
  match goal with
  | |- context [try_except_Exception ?body _ ?w1] =>
      destruct (try_except_quiet body w1) as (w' & Hrun & Hrg & Hf & Hd & He);
        [quiet_tac|]
  end.
  exists w'. split; [exact Hrun|].
  rewrite Hf, Hd, He. simpl.
  unfold party_files, party_data, value_bounds. simpl.
  rewrite Hrange. simpl. repeat split.
Qed.

(** The one-line file of the linear layer (the vector [x]). *)
Lemma open_row_run a b p cols w :
  a <= b ->
  (f <- open_w p ;;
   row <- gen_range cols (v <- random_randint a b ;; ret (str v)) ;;
   write f (join " " row) ;;;
   write f nl) w =
  (Ok tt,
   {| rng := snd (draws a b (Z.to_nat cols) (rng w));
      fs := <[file_of p :=
                render_rows [fst (draws a b (Z.to_nat cols) (rng w))]]> (fs w);
      dirs := dirs w; stdout := stdout w; env := env w |}).
Proof.
  intros Hab. rewrite (bind_ok (open_w p) _ _ (file_of p) _ eq_refl).
  unfold gen_range.
  change (write_row (random_randint a b) (file_of p) (Z.to_nat cols)
            (set_fs (<[file_of p := ""]> (fs w)) w) =
          (Ok tt,
           {| rng := snd (draws a b (Z.to_nat cols) (rng w));
              fs := <[file_of p :=
                        render_rows [fst (draws a b (Z.to_nat cols) (rng w))]]>
                      (fs w);
              dirs := dirs w; stdout := stdout w; env := env w |})).
  rewrite (write_row_run a b (file_of p) _ _ "" Hab)
    by (simpl; apply lookup_insert_eq).
  simpl. rewrite insert_insert_eq. reflexivity.
Qed.

(** The second file of the linear layer: the rows of [W], then [b]. *)
Lemma open_rows_row_run a b p rows cols w :
  a <= b ->
  (f <- open_w p ;;
   for_range rows
     (row <- gen_range cols (v <- random_randint a b ;; ret (str v)) ;;
      write f (join " " row) ;;;
      write f nl) ;;;
   row <- gen_range cols (v <- random_randint a b ;; ret (str v)) ;;
   write f (join " " row) ;;;
   write f nl) w =
  (Ok tt,
   let W := draw_rows a b (Z.to_nat rows) (Z.to_nat cols) (rng w) in
   let bias := draws a b (Z.to_nat cols) (snd W) in
   {| rng := snd bias;
      fs := <[file_of p := render_rows (fst W ++ [fst bias])]> (fs w);
      dirs := dirs w; stdout := stdout w; env := env w |}).
Proof.
  intros Hab. rewrite (bind_ok (open_w p) _ _ (file_of p) _ eq_refl).
  unfold for_range, gen_range.
  change (bind (repeatM (Z.to_nat rows)
                  (write_row (random_randint a b) (file_of p) (Z.to_nat cols)))
               (fun _ => write_row (random_randint a b) (file_of p) (Z.to_nat cols))
               (set_fs (<[file_of p := ""]> (fs w)) w) =
          (Ok tt,
           let W := draw_rows a b (Z.to_nat rows) (Z.to_nat cols) (rng w) in
           let bias := draws a b (Z.to_nat cols) (snd W) in
           {| rng := snd bias;
              fs := <[file_of p := render_rows (fst W ++ [fst bias])]> (fs w);
              dirs := dirs w; stdout := stdout w; env := env w |})).
  rewrite (bind_ok _ _ _ _ _ (repeat_write_row a b (file_of p) _ _ _ "" Hab
                                 (lookup_insert_eq _ _ _))).
  rewrite (write_row_run a b (file_of p) _ _ _ Hab (lookup_insert_eq _ _ _)).
  simpl. rewrite !insert_insert_eq, render_rows_app. reflexivity.
Qed.

Lemma linear_accepted a w :
  accepted (LinearLayer a) = true ->
  exists w',
    Linear.main a w = (Ok tt, w')
    /\ fs w' = write_all (party_files (LinearLayer a)) (fs w)
    /\ dirs w' = made_dirs (Linear.dir a) ∪ dirs w
    /\ env w' = env w.
Proof.
  intros Hacc. pose proof (accepted_bounds _ Hacc) as Hlohi.
  unfold value_bounds in Hlohi. simpl in Hlohi.
  unfold accepted in Hacc. cbn [shape_ok bit_width andb] in Hacc.
  unfold Linear.main.
  rewrite (bind_ok _ _ w tt (set_rng (rng_seed (Linear.seed a)) w))
    by reflexivity.
  rewrite bits_check_iff, Hacc. cbn [negb].
  destruct (value_range (Linear.bits a) (Linear.signed a)) as [lo hi] eqn:Hrange.
  simpl in Hlohi.
  rewrite (bind_ok _ _ _ tt
    (set_dirs (made_dirs (Linear.dir a) ∪ dirs w)
       (set_rng (rng_seed (Linear.seed a)) w))) by reflexivity.
  set (p0 := path_join (Linear.dir a) (Linear.p0_file a)).
  set (p1 := path_join (Linear.dir a) (Linear.p1_file a)).
  rewrite (bind_ok _ _ _ _ _ (open_row_run lo hi p0 _ _ Hlohi)).
  rewrite (bind_ok _ _ _ _ _ (open_rows_row_run lo hi p1 _ _ _ Hlohi)).
  match goal with
  | |- context [try_except_Exception ?body _ ?w1] =>
      destruct (try_except_quiet body w1) as (w' & Hrun & Hrg & Hf & Hd & He);
        [quiet_tac|]
  end.
  exists w'. split; [exact Hrun|].
  rewrite Hf, Hd, He. simpl.
  unfold party_files, party_data, value_bounds. simpl.
  rewrite Hrange. simpl. repeat split.
Qed.

(** An accepted run completes, and its only effects on the file system are
    the output directory and the party files. *)
Lemma run_accepted sc w :
  accepted sc = true ->
  exists w',
    run sc w = (Ok tt, w')
    /\ fs w' = write_all (party_files sc) (fs w)
    /\ dirs w' = made_dirs (output_dir sc) ∪ dirs w
    /\ env w' = env w.
Proof.
  destruct sc as [a|a|a]; simpl.
  - apply threshold_accepted.
  - apply convolution_accepted.
  - apply linear_accepted.
Qed.

Lemma write_all_cons p c files m :
  write_all ((p, c) :: files) m = write_all files (<[p := c]> m).
Proof. reflexivity. Qed.

Lemma write_all_other files m p :
  ~ In p (map fst files) -> write_all files m !! p = m !! p.
Proof.
  revert m. induction files as [|[q c] files IH]; intros m Hp; [reflexivity|].
  rewrite write_all_cons, IH.
  - apply lookup_insert_ne. intros ->. apply Hp. now left.
  - intros Hin. apply Hp. now right.
Qed.

(** A path that is written holds the content of one of the files written
    at it, whatever was there before. *)
Lemma write_all_written (files : list (string * string)) p :
  In p (map fst files) ->
  exists c, In (p, c) files /\ forall m, write_all files m !! p = Some c.
Proof.
  induction files as [|[q c] files IH]; intros Hp; [destruct Hp|].
  destruct (in_dec string_dec p (map fst files)) as [Hin|Hout].
  - destruct (IH Hin) as (c' & Hc' & Hlook).
    exists c'. split; [now right|]. intros m'. rewrite write_all_cons. apply Hlook.
  - destruct Hp as [Hq|Hin]; [|contradiction]. simpl in Hq. subst q.
    exists c. split; [now left|]. intros m'.
    rewrite write_all_cons, (write_all_other _ _ _ Hout).
    apply lookup_insert_eq.
Qed.

Lemma write_all_distinct files m p c :
  List.NoDup (map fst files) -> In (p, c) files ->
  write_all files m !! p = Some c.
Proof.
  revert m. induction files as [|[q d] files IH]; intros m Hnd Hin;
    [destruct Hin|].
  inversion Hnd as [|? ? Hq Hnd']; subst.
  rewrite write_all_cons. destruct Hin as [[= -> ->]|Hin].
  - rewrite (write_all_other _ _ _ Hq). apply lookup_insert_eq.
  - now apply IH.
Qed.

(** The directory asked for is among those [os.makedirs] makes. *)
Lemma made_dirs_self (d : string) : file_of d ∈ made_dirs d.
Proof.
  unfold made_dirs, dir_chain. rewrite map_app, list_to_set_app.
  apply elem_of_union_r. cbn [map list_to_set].
  apply elem_of_union_l, elem_of_singleton. reflexivity.
Qed.

Lemma party_data_length sc : length (party_data sc) = length (party_paths sc).
Proof. now destruct sc. Qed.

Lemma party_files_paths sc : map fst (party_files sc) = party_targets sc.
Proof. now destruct sc. Qed.

Lemma party_targets_in sc p :
  In p (party_paths sc) -> In (file_of p) (map fst (party_files sc)).
Proof.
  intros Hp. rewrite party_files_paths. unfold party_targets.
  now apply in_map.
Qed.

Lemma party_files_in sc p c :
  In (p, c) (party_files sc) ->
  exists rows, In rows (party_data sc) /\ c = render_rows rows.
Proof.
  unfold party_files. intros Hin. apply in_combine_r in Hin.
  apply in_map_iff in Hin as (rows & <- & Hrows). now exists rows.
Qed.

(** Every value of every party file lies in the range sampled from. *)
Lemma party_data_range sc :
  accepted sc = true ->
  Forall (Forall (Forall (fun v =>
    fst (value_bounds sc) <= v <= snd (value_bounds sc)))) (party_data sc).
Proof.
  intros Hacc. pose proof (accepted_bounds _ Hacc) as Hb.
  destruct sc as [a|a|a]; unfold party_data.
  - constructor; [|constructor].
    apply List.Forall_forall. intros row Hrow.
    apply in_map_iff in Hrow as (v & <- & Hv).
    constructor; [|constructor].
    revert v Hv. apply List.Forall_forall. now apply draws_range.
  - repeat constructor; now apply draw_rows_range.
  - constructor; [|constructor; [|constructor]].
    + constructor; [|constructor]. now apply draws_range.
    + apply Forall_app. split; [now apply draw_rows_range|].
      constructor; [|constructor]. now apply draws_range.
Qed.

Lemma concat_singletons {A} (xs : list A) :
  concat (map (fun v => [v]) xs) = xs.
Proof. induction xs as [|x xs IH]; simpl; [reflexivity | now rewrite IH]. Qed.

(** Read party by party and row by row, the party files are the stream
    of draws, value for value. *)
Lemma party_data_flat sc :
  concat (concat (party_data sc)) =
  fst (draws (fst (value_bounds sc)) (snd (value_bounds sc)) (draw_count sc)
         (rng_seed (prng_seed sc))).
Proof.
  destruct sc as [a|a|a]; unfold party_data, draw_count.
  - simpl. rewrite app_nil_r. apply concat_singletons.
  - cbn [concat]. rewrite app_nil_r, concat_app, draws_add. cbn [fst].
    now rewrite !draw_rows_concat, draw_rows_state.
  - cbn [concat]. rewrite !app_nil_r, !concat_app. cbn [concat].
    rewrite app_nil_r, !draws_add. cbn [fst snd].
    now rewrite !draw_rows_concat, draw_rows_state, app_nil_r.
Qed.

End ResultsFacts.

(** ** Properties of the generators *)

(** *** Range derivation *)

(** C3: for a bit width between 1 and 31 the derived range is
    [-2^(bits-1), 2^(bits-1)-1] when signed and [0, 2^bits-1] when unsigned,
    its lower end is not above its upper end, and every scenario with these
    bits and this signedness samples from exactly this range. *)
Theorem value_range_derivation (bits : Z) (use_signed : bool) :
  1 <= bits <= 31 ->
  value_range bits use_signed =
    (if use_signed then (- 2 ^ (bits - 1), 2 ^ (bits - 1) - 1)
     else (0, 2 ^ bits - 1))
  /\ fst (value_range bits use_signed) <= snd (value_range bits use_signed)
  /\ (forall sc, bit_width sc = bits -> signedness sc = use_signed ->
        value_bounds sc = value_range bits use_signed).
Proof.
  intros Hb. split; [now apply value_range_pow2|].
  split; [now apply value_range_ordered|].
  intros sc <- <-. reflexivity.
Qed.

Lemma value_range_derivation_witness :
  value_range 4 false = (0, 15)
  /\ value_range 16 true = (-32768, 32767).
Proof.
  split.
  - apply (value_range_derivation 4 false). lia.
  - apply (value_range_derivation 16 true). lia.
Defined.

(** *** Rejected arguments *)

Lemma bits_check_true (b : Z) :
  b < 1 \/ 31 < b -> (b <=? 0) || (b >? 31) = true.
Proof.
  intros Hb. rewrite bits_check_iff.
  destruct (bits_ok b) eqn:Hok; [|reflexivity].
  apply bits_ok_iff in Hok. lia.
Qed.

(** C8: a bit width outside [1, 31] makes every generator end with
    [SystemExit] (exit status 1) while the files, the directories and the
    standard output are as they were before the run. *)
Theorem bad_bit_width_rejected `{RandomSource} `{FileNames}
    (sc : scenario) (w : world) :
  bit_width sc < 1 \/ 31 < bit_width sc ->
  exists msg,
    fst (run sc w) = Raise (SystemExit msg)
    /\ exit_status (fst (run sc w)) = 1
    /\ fs (snd (run sc w)) = fs w
    /\ dirs (snd (run sc w)) = dirs w
    /\ stdout (snd (run sc w)) = stdout w
    /\ (shape_ok sc = true -> msg = bits_message).
Proof.
  intros Hb. apply bits_check_true in Hb.
  destruct sc as [a|a|a]; cbn [run bit_width shape_ok] in *.
  - unfold Activation.main.
    destruct (Z.leb_spec (Activation.len a) 0) as [Hlen|Hlen].
    + eexists. repeat split. intros Hs. apply Z.ltb_lt in Hs. lia.
    + unfold bind at 1. cbn [random_seed]. rewrite Hb.
      eexists. repeat split.
  - unfold Conv.main.
    destruct ((Conv.a_rows a <=? 0) || (Conv.a_cols a <=? 0)
              || (Conv.w_dim a <=? 0)) eqn:Hpos.
    + eexists. repeat split. intros Hs.
      rewrite !andb_true_iff, !Z.ltb_lt in Hs.
      rewrite !orb_true_iff, !Z.leb_le in Hpos. lia.
    + destruct ((Conv.w_dim a >? Conv.a_rows a)
                || (Conv.w_dim a >? Conv.a_cols a)) eqn:Hker.
      * eexists. repeat split. intros Hs.
        rewrite !andb_true_iff, !Z.leb_le in Hs.
        rewrite !orb_true_iff, !Z.gtb_ltb, !Z.ltb_lt in Hker. lia.
      * unfold bind at 1. cbn [random_seed]. rewrite Hb.
        eexists. repeat split.
  - unfold Linear.main. unfold bind at 1. cbn [random_seed]. rewrite Hb.
    eexists. repeat split.
Qed.

Lemma bad_bit_width_rejected_witness :
  exists msg,
    fst (@run lcg posix_names (Convolution conv_bits_32) fresh_world)
      = Raise (SystemExit msg)
    /\ exit_status (fst (@run lcg posix_names (Convolution conv_bits_32) fresh_world)) = 1
    /\ fs (snd (@run lcg posix_names (Convolution conv_bits_32) fresh_world)) = ∅
    /\ dirs (snd (@run lcg posix_names (Convolution conv_bits_32) fresh_world)) = ∅
    /\ stdout (snd (@run lcg posix_names (Convolution conv_bits_32) fresh_world)) = []
    /\ (shape_ok (Convolution conv_bits_32) = true -> msg = bits_message).
Proof.
  apply (@bad_bit_width_rejected lcg posix_names (Convolution conv_bits_32) fresh_world).
  right. simpl. lia.
Defined.

(** C5: a kernel larger than the input makes the convolution generator end
    with [SystemExit] before anything is seeded, drawn, created or printed:
    the world is left exactly as it was.  The message names [W_DIM], [A_ROWS]
    and [A_COLS] with their values, unless one of the three is not positive,
    in which case the positivity message naming the three is given. *)
Theorem oversized_kernel_rejected `{RandomSource} `{FileNames}
    (a : Conv.args) (w : world) :
  Conv.w_dim a > Conv.a_rows a \/ Conv.w_dim a > Conv.a_cols a ->
  run (Convolution a) w =
    (Raise (SystemExit
       (if forallb (fun d => 0 <? d) (shape_dims (Convolution a))
        then Conv.kernel_message (Conv.w_dim a) (Conv.a_rows a) (Conv.a_cols a)
        else Conv.positive_message)),
     w).
Proof.
  intros Hk. cbn [run shape_dims forallb]. unfold Conv.main.
  destruct (Z.leb_spec (Conv.a_rows a) 0) as [Hr|Hr];
    destruct (Z.ltb_spec 0 (Conv.a_rows a)) as [Hr'|Hr']; try lia;
    try reflexivity.
  destruct (Z.leb_spec (Conv.a_cols a) 0) as [Hc|Hc];
    destruct (Z.ltb_spec 0 (Conv.a_cols a)) as [Hc'|Hc']; try lia;
    try reflexivity.
  destruct (Z.leb_spec (Conv.w_dim a) 0) as [Hw|Hw];
    destruct (Z.ltb_spec 0 (Conv.w_dim a)) as [Hw'|Hw']; try lia;
    try reflexivity.
  cbn [orb andb].
  replace ((Conv.w_dim a >? Conv.a_rows a) || (Conv.w_dim a >? Conv.a_cols a))
    with true; [reflexivity|].
  symmetry. rewrite orb_true_iff, !Z.gtb_ltb, !Z.ltb_lt. lia.
Qed.

Lemma oversized_kernel_rejected_witness :
  @run lcg posix_names (Convolution conv_kernel_5_rows_4) fresh_world =
  (Raise (SystemExit "W_DIM=5 must be <= A_ROWS=4 and <= A_COLS=8 (valid conv)."),
   fresh_world).
Proof.
  apply (@oversized_kernel_rejected lcg posix_names conv_kernel_5_rows_4 fresh_world).
  left. simpl. lia.
Defined.

(** X1: the threshold and the convolution generator reject a shape
    dimension that is not positive before anything is seeded, drawn,
    created or printed: the world is left exactly as it was. *)
Theorem nonpositive_shape_rejected `{RandomSource} `{FileNames}
    (sc : scenario) (w : world) :
  checks_positivity sc = true ->
  Exists (fun d => d <= 0) (shape_dims sc) ->
  exists msg, run sc w = (Raise (SystemExit msg), w).
Proof.
  intros Hchk Hdim. destruct sc as [a|a|a]; [| |discriminate Hchk];
    cbn [run shape_dims] in *.
  - apply Exists_cons in Hdim as [Hlen|Hnil]; [|inversion Hnil].
    unfold Activation.main.
    destruct (Z.leb_spec (Activation.len a) 0); [|lia]. now eexists.
  - unfold Conv.main.
    replace ((Conv.a_rows a <=? 0) || (Conv.a_cols a <=? 0)
             || (Conv.w_dim a <=? 0)) with true; [now eexists|].
    symmetry. rewrite !orb_true_iff, !Z.leb_le.
    rewrite !Exists_cons in Hdim. rewrite Exists_nil in Hdim. tauto.
Qed.

Lemma nonpositive_shape_rejected_witness :
  exists msg,
    @run lcg posix_names (Threshold threshold_len_0) fresh_world
    = (Raise (SystemExit msg), fresh_world).
Proof.
  apply (@nonpositive_shape_rejected lcg posix_names (Threshold threshold_len_0)).
  - reflexivity.
  - constructor. simpl. lia.
Defined.

(** C1 fails for the linear layer: with [--n 0] the generator does not
    stop with an error; it completes, creates the output directory and
    writes both party files, each holding one empty line. *)
Theorem linear_accepts_nonpositive_n `{RandomSource} `{FileNames} (w : world) :
  Exists (fun d => d <= 0) (shape_dims (LinearLayer linear_n_0))
  /\ fst (run (LinearLayer linear_n_0) w) = Ok tt
  /\ exit_status (fst (run (LinearLayer linear_n_0) w)) = 0
  /\ fs (snd (run (LinearLayer linear_n_0) w))
       !! file_of "Player-Data/Input-P0-0" = Some nl
  /\ fs (snd (run (LinearLayer linear_n_0) w))
       !! file_of "Player-Data/Input-P1-0" = Some nl
  /\ file_of "Player-Data" ∈ dirs (snd (run (LinearLayer linear_n_0) w)).
Proof.
  split; [constructor; simpl; lia|].
  destruct (run_accepted (LinearLayer linear_n_0) w eq_refl)
    as (w' & Hrun & Hfs & Hdirs & _).
  rewrite Hrun. cbn [fst snd exit_status]. rewrite Hfs, Hdirs.
  repeat split.
  - cbn. rewrite lookup_insert. case_decide; [reflexivity|].
    apply lookup_insert_eq.
  - cbn. apply lookup_insert_eq.
  - apply elem_of_union_l. apply (made_dirs_self "Player-Data").
Qed.

(** The predicate [accepted] is exactly the set of arguments the code lets
    through: any other arguments end the run with [SystemExit] and the
    message of the first failed check, and leave the file system and the
    standard output alone. *)
Lemma run_not_accepted `{RandomSource} `{FileNames}
    (sc : scenario) (w : world) :
  accepted sc = false ->
  fst (run sc w) = Raise (SystemExit (rejection_message sc))
  /\ fs (snd (run sc w)) = fs w
  /\ dirs (snd (run sc w)) = dirs w
  /\ stdout (snd (run sc w)) = stdout w.
Proof.
  unfold accepted. intros Hacc.
  destruct sc as [a|a|a]; cbn [run bit_width shape_ok rejection_message] in *.
  - unfold Activation.main.
    destruct (Z.leb_spec (Activation.len a) 0) as [Hlen|Hlen];
      [repeat split|].
    replace (0 <? Activation.len a) with true in Hacc
      by (symmetry; now apply Z.ltb_lt).
    cbn [andb] in Hacc. unfold bind at 1. cbn [random_seed].
    rewrite bits_check_iff, Hacc. repeat split.
  - unfold Conv.main.
    destruct ((Conv.a_rows a <=? 0) || (Conv.a_cols a <=? 0)
              || (Conv.w_dim a <=? 0)) eqn:Hpos; [repeat split|].
    destruct ((Conv.w_dim a >? Conv.a_rows a)
              || (Conv.w_dim a >? Conv.a_cols a)) eqn:Hker; [repeat split|].
    rewrite !orb_false_iff, !Z.leb_gt in Hpos.
    rewrite !orb_false_iff, !Z.gtb_ltb, !Z.ltb_ge in Hker.
    replace (0 <? Conv.a_rows a) with true in Hacc
      by (symmetry; apply Z.ltb_lt; tauto).
    replace (0 <? Conv.a_cols a) with true in Hacc
      by (symmetry; apply Z.ltb_lt; tauto).
    replace (0 <? Conv.w_dim a) with true in Hacc
      by (symmetry; apply Z.ltb_lt; tauto).
    replace (Conv.w_dim a <=? Conv.a_rows a) with true in Hacc
      by (symmetry; apply Z.leb_le; tauto).
    replace (Conv.w_dim a <=? Conv.a_cols a) with true in Hacc
      by (symmetry; apply Z.leb_le; tauto).
    cbn [andb] in Hacc. unfold bind at 1. cbn [random_seed].
    rewrite bits_check_iff, Hacc. repeat split.
  - cbn [andb] in Hacc. unfold Linear.main. unfold bind at 1.
    cbn [random_seed]. rewrite bits_check_iff, Hacc. repeat split.
Qed.

(** *** Accepted runs *)

(** C2: two runs of a generator on the same arguments, started from any
    two worlds (other files, other earlier contents of the party files,
    another state of the random module, another environment), end the same
    way; and when the arguments are accepted both complete and every party
    file exists after both with the same content. *)
Theorem runs_are_deterministic `{RandomSource} `{FileNames}
    (sc : scenario) (w1 w2 : world) :
  fst (run sc w1) = fst (run sc w2)
  /\ (accepted sc = true ->
      fst (run sc w1) = Ok tt
      /\ forall p, In p (party_paths sc) ->
           exists content,
             fs (snd (run sc w1)) !! file_of p = Some content
             /\ fs (snd (run sc w2)) !! file_of p = Some content).
Proof.
  destruct (accepted sc) eqn:Hacc.
  - destruct (run_accepted sc w1 Hacc) as (w1' & Hrun1 & Hfs1 & _).
    destruct (run_accepted sc w2 Hacc) as (w2' & Hrun2 & Hfs2 & _).
    rewrite Hrun1, Hrun2. cbn [fst snd]. repeat split.
    intros p Hp. apply party_targets_in in Hp.
    destruct (write_all_written _ _ Hp) as (c & _ & Hc).
    exists c. now rewrite Hfs1, Hfs2, !Hc.
  - destruct (run_not_accepted sc w1 Hacc) as (Hrun1 & _).
    destruct (run_not_accepted sc w2 Hacc) as (Hrun2 & _).
    split; [congruence | discriminate].
Qed.

(** C9: whatever the environment does to the [stat] and [print] calls of
    the summary (any of them may raise any of the [Exception] subclasses
    of the model), an accepted run completes with exit status 0 and leaves
    exactly the files it wrote: the file system is the one a run without
    any such failure leaves. *)
Theorem summary_failure_swallowed `{RandomSource} `{FileNames}
    (sc : scenario) (w : world) (e : environment) :
  accepted sc = true ->
  fst (run sc (set_env e w)) = Ok tt
  /\ exit_status (fst (run sc (set_env e w))) = 0
  /\ fs (snd (run sc (set_env e w))) = write_all (party_files sc) (fs w)
  /\ fs (snd (run sc (set_env e w)))
     = fs (snd (run sc (set_env no_faults w))).
Proof.
  intros Hacc.
  destruct (run_accepted sc (set_env e w) Hacc) as (w1 & Hrun1 & Hfs1 & _).
  destruct (run_accepted sc (set_env no_faults w) Hacc)
    as (w2 & Hrun2 & Hfs2 & _).
  rewrite Hrun1, Hrun2. cbn [fst snd exit_status].
  rewrite Hfs1, Hfs2. repeat split.
Qed.

Lemma runs_are_deterministic_witness :
  fst (@run lcg posix_names (Convolution conv_3x3_2) fresh_world) = Ok tt
  /\ forall p, In p (party_paths (Convolution conv_3x3_2)) ->
       exists content,
         fs (snd (@run lcg posix_names (Convolution conv_3x3_2) fresh_world))
           !! normpath p = Some content
         /\ fs (snd (@run lcg posix_names (Convolution conv_3x3_2) used_world))
              !! normpath p = Some content.
Proof.
  apply (@runs_are_deterministic lcg posix_names (Convolution conv_3x3_2)
           fresh_world used_world).
  reflexivity.
Defined.

Lemma summary_failure_swallowed_witness :
  fst (@run lcg posix_names (Convolution conv_3x3_2) (set_env print_fails fresh_world))
    = Ok tt
  /\ exit_status
       (fst (@run lcg posix_names (Convolution conv_3x3_2) (set_env print_fails fresh_world)))
     = 0
  /\ fs (snd (@run lcg posix_names (Convolution conv_3x3_2) (set_env print_fails fresh_world)))
     = write_all (@party_files lcg posix_names (Convolution conv_3x3_2)) (fs fresh_world)
  /\ fs (snd (@run lcg posix_names (Convolution conv_3x3_2) (set_env print_fails fresh_world)))
     = fs (snd (@run lcg posix_names (Convolution conv_3x3_2) (set_env no_faults fresh_world))).
Proof.
  apply (@summary_failure_swallowed lcg posix_names (Convolution conv_3x3_2)
           fresh_world print_fails).
  reflexivity.
Defined.

(** The concrete scenario, run: the two files of the spec's example, and a
    summary of three lines. *)
Example conv_3x3_2_run :
  let r := @run lcg posix_names (Convolution conv_3x3_2) fresh_world in
  fst r = Ok tt
  /\ fs (snd r) !! "Player-Data/Input-P0-0"
     = Some ("11 8 1" +:+ nl +:+ "6 7 4" +:+ nl +:+ "13 2 3" +:+ nl)
  /\ fs (snd r) !! "Player-Data/Input-P1-0"
     = Some ("0 9" +:+ nl +:+ "14 15" +:+ nl)
  /\ length (stdout (snd r)) = 3%nat.
Proof. vm_compute. repeat split. Qed.

(** The same scenario where [stat] fails: the summary is skipped, the files
    are the same, the stale file was replaced, and the run still succeeds. *)
Example conv_3x3_2_run_stat_fails :
  let r := @run lcg posix_names (Convolution conv_3x3_2) used_world in
  fst r = Ok tt
  /\ fs (snd r) !! "Player-Data/Input-P0-0"
     = Some ("11 8 1" +:+ nl +:+ "6 7 4" +:+ nl +:+ "13 2 3" +:+ nl)
  /\ fs (snd r) !! "Player-Data/Input-P1-0"
     = Some ("0 9" +:+ nl +:+ "14 15" +:+ nl)
  /\ stdout (snd r) = ["earlier output"].
Proof. vm_compute. repeat split. Qed.

(** *** Content and layout of the party files *)

Example file_shape_ok_examples :
  file_shape_ok ("1 2 3" +:+ nl +:+ "4 5 6" +:+ nl) 2 3 = true
  /\ file_shape_ok ("1 2 3" +:+ nl +:+ "4 5" +:+ nl) 2 3 = false
  /\ file_shape_ok ("1 2 3" +:+ nl +:+ "4 5 6") 2 3 = false
  /\ file_shape_ok ("1 2 3" +:+ nl +:+ nl) 1 3 = false
  /\ file_shape_ok ("1 2 03" +:+ nl) 1 3 = false.
Proof. repeat split; reflexivity. Qed.

Lemma file_shape_render (M : list (list Z)) (rows cols : Z) :
  Z.of_nat (length M) = rows ->
  Forall (fun row => Z.of_nat (length row) = cols) M ->
  file_shape_ok (render_rows M) rows cols = true.
Proof.
  intros Hrows Hcols. unfold file_shape_ok.
  rewrite parse_file_render_rows, String.eqb_refl, andb_true_r.
  apply andb_true_intro. split; [now apply Z.eqb_eq|].
  apply forallb_forall. intros row Hrow. apply Z.eqb_eq.
  revert row Hrow. now apply List.Forall_forall.
Qed.

Lemma Forall2_weaken {A B} (P Q : A -> B -> Prop) xs ys :
  (forall x y, P x y -> Q x y) -> Forall2 P xs ys -> Forall2 Q xs ys.
Proof. intros HPQ HP. induction HP; constructor; auto. Qed.

Lemma write_all_combine (paths : list string) (contents : list string) m :
  List.NoDup paths -> length paths = length contents ->
  Forall2 (fun p c => write_all (combine paths contents) m !! p = Some c)
    paths contents.
Proof.
  intros Hnd Hlen.
  assert (Hfst : map fst (combine paths contents) = paths).
  { clear Hnd. revert contents Hlen.
    induction paths as [|p ps IH]; intros [|c cs] Hlen; try discriminate;
      [reflexivity|]. simpl. f_equal. apply IH. now injection Hlen. }
  assert (Hin : Forall2 (fun p c => In (p, c) (combine paths contents))
                  paths contents).
  { clear Hnd Hfst. revert contents Hlen.
    induction paths as [|p ps IH]; intros [|c cs] Hlen; try discriminate;
      [constructor|].
    constructor; [now left|].
    assert (Htail : Forall2 (fun p c => In (p, c) (combine ps cs)) ps cs)
      by (apply IH; now injection Hlen).
    revert Htail. apply Forall2_weaken. intros q d Hqd. now right. }
  revert Hin. apply Forall2_weaken. intros p c Hpc.
  apply write_all_distinct; [now rewrite Hfst | exact Hpc].
Qed.

(** C4: after an accepted run every party file is the rendering of one of
    the blocks of rows the run drew, each value printed by [str] and read
    back unchanged, and all its integers lie in the range derived from the
    bit width and the signedness.  The blocks, taken party by party and
    row by row, are exactly the values drawn from the seeded generator, in
    the order drawn; when the party paths name different files, every file
    holds the block of its party. *)
Theorem written_values_in_range `{RandomSource} `{FileNames}
    (sc : scenario) (w : world) :
  accepted sc = true ->
  (forall p, In p (party_paths sc) ->
     exists rows,
       In rows (party_data sc)
       /\ fs (snd (run sc w)) !! file_of p = Some (render_rows rows)
       /\ parse_file (render_rows rows) = Some rows
       /\ Forall (Forall (fun v =>
            fst (value_bounds sc) <= v <= snd (value_bounds sc))) rows)
  /\ concat (concat (party_data sc)) =
     fst (draws (fst (value_bounds sc)) (snd (value_bounds sc))
            (draw_count sc) (rng_seed (prng_seed sc)))
  /\ (List.NoDup (party_targets sc) ->
      Forall2 (fun p rows =>
                 fs (snd (run sc w)) !! file_of p = Some (render_rows rows))
        (party_paths sc) (party_data sc)).
Proof.
  intros Hacc.
  destruct (run_accepted sc w Hacc) as (w' & Hrun & Hfs & _).
  rewrite Hrun. cbn [snd]. rewrite Hfs.
  split; [|split; [apply party_data_flat|]].
  - intros p Hp. apply party_targets_in in Hp.
    destruct (write_all_written _ _ Hp) as (c & Hc & Hlook).
    destruct (party_files_in _ _ _ Hc) as (rows & Hrows & ->).
    exists rows. split; [exact Hrows|]. split; [apply Hlook|].
    split; [apply parse_file_render_rows|].
    pose proof (party_data_range sc Hacc) as Hrange.
    rewrite List.Forall_forall in Hrange. now apply Hrange.
  - intros Hnd.
    assert (Hall : Forall2 (fun p c => write_all (party_files sc) (fs w) !! p
                                       = Some c)
                     (map file_of (party_paths sc))
                     (map render_rows (party_data sc))).
    { apply write_all_combine; [exact Hnd|]. unfold party_targets.
      now rewrite !length_map, party_data_length. }
    clear Hnd. revert Hall. generalize (write_all (party_files sc) (fs w)).
    generalize (party_paths sc). generalize (party_data sc).
    intros data. induction data as [|rows data IH]; intros [|p paths] m Hall;
      inversion Hall; subst; constructor; [assumption | now apply (IH _ m)].
Qed.

Lemma written_values_in_range_witness :
  (forall p, In p (party_paths (Convolution conv_3x3_2)) ->
     exists rows,
       In rows (@party_data lcg (Convolution conv_3x3_2))
       /\ fs (snd (@run lcg posix_names (Convolution conv_3x3_2) used_world))
            !! normpath p = Some (render_rows rows)
       /\ parse_file (render_rows rows) = Some rows
       /\ Forall (Forall (fun v => 0 <= v <= 15)) rows)
  /\ concat (concat (@party_data lcg (Convolution conv_3x3_2))) =
     fst (@draws lcg 0 15 13 (42 : @rng_state lcg))
  /\ (List.NoDup (@party_targets posix_names (Convolution conv_3x3_2)) ->
      Forall2 (fun p rows =>
                 fs (snd (@run lcg posix_names (Convolution conv_3x3_2) used_world))
                   !! normpath p = Some (render_rows rows))
        (party_paths (Convolution conv_3x3_2))
        (@party_data lcg (Convolution conv_3x3_2))).
Proof.
  apply (@written_values_in_range lcg posix_names (Convolution conv_3x3_2) used_world).
  reflexivity.
Defined.

(** C10: in the threshold generator [args.signed] is always true, the range
    is signed unless [--unsigned] is given, and [--unsigned] selects
    [0, 2^bits-1] whether or not [--signed] is given as well.  This is the
    range [main] samples from: a run on a positive [LEN] completes, and
    the party-0 file it leaves holds, read line by line, the [LEN] values
    that [random.randint] draws from exactly this range out of the seeded
    generator, each of them inside the range. *)
Theorem unsigned_flag_overrides `{RandomSource} `{FileNames}
    (c : Activation.cli) (w : world) :
  let a := Activation.parse_args c in
  let range :=
    if Activation.flag_unsigned c
    then (0, 2 ^ Activation.bits a - 1)
    else (- 2 ^ (Activation.bits a - 1), 2 ^ (Activation.bits a - 1) - 1) in
  1 <= Activation.bits a <= 31 ->
  Activation.signed a = true
  /\ Activation.use_signed a = negb (Activation.flag_unsigned c)
  /\ value_bounds (Threshold a) = range
  /\ (0 < Activation.len a ->
      exists content rows,
        fst (Activation.main a w) = Ok tt
        /\ fs (snd (Activation.main a w))
             !! file_of (path_join (Activation.dir a) (Activation.p0_file a))
           = Some content
        /\ parse_file content = Some rows
        /\ concat rows =
           fst (draws (fst range) (snd range) (Z.to_nat (Activation.len a))
                  (rng_seed (Activation.seed a)))
        /\ Forall (Forall (fun v => fst range <= v <= snd range)) rows).
Proof.
  intros a range Hb.
  assert (Hs : Activation.signed a = true)
    by (simpl; now destruct (Activation.flag_signed c)).
  assert (Hu : Activation.use_signed a = negb (Activation.flag_unsigned c)).
  { unfold Activation.use_signed. rewrite Hs. simpl.
    now destruct (Activation.flag_unsigned c). }
  assert (Hvb : value_bounds (Threshold a) = range).
  { unfold value_bounds, range. cbn [bit_width signedness]. rewrite Hu.
    rewrite (value_range_pow2 _ _ Hb).
    now destruct (Activation.flag_unsigned c). }
  split; [exact Hs|]. split; [exact Hu|]. split; [exact Hvb|].
  intros Hlen.
  assert (Hacc : accepted (Threshold a) = true).
  { unfold accepted. cbn [shape_ok bit_width]. apply andb_true_intro.
    split; [now apply Z.ltb_lt | now apply bits_ok_iff]. }
  destruct (run_accepted (Threshold a) w Hacc) as (w' & Hrun & Hfs & _).
  cbn [run] in Hrun. rewrite Hrun. cbn [fst snd]. rewrite Hfs.
  pose proof (party_data_range (Threshold a) Hacc) as Hrange.
  rewrite <- Hvb.
  unfold party_files, party_targets. unfold party_data in *.
  cbn [party_paths map combine write_all fold_left fst snd prng_seed] in *.
  set (vs := fst (draws _ _ _ _)) in *.
  exists (render_rows (map (fun v => [v]) vs)), (map (fun v => [v]) vs).
  split; [reflexivity|]. split; [apply lookup_insert_eq|].
  split; [apply parse_file_render_rows|].
  split; [apply concat_singletons|].
  now inversion Hrange.
Qed.

Lemma unsigned_flag_overrides_witness :
  Activation.signed (Activation.parse_args both_flags) = true
  /\ Activation.use_signed (Activation.parse_args both_flags) = false
  /\ @value_bounds (Threshold (Activation.parse_args both_flags)) = (0, 255)
  /\ (exists content rows,
        fst (@Activation.main lcg posix_names
               (Activation.parse_args both_flags) fresh_world) = Ok tt
        /\ fs (snd (@Activation.main lcg posix_names
                      (Activation.parse_args both_flags) fresh_world))
             !! normpath "Player-Data/Input-P0-0" = Some content
        /\ parse_file content = Some rows
        /\ concat rows = fst (@draws lcg 0 255 1024 (42 : @rng_state lcg))
        /\ Forall (Forall (fun v => 0 <= v <= 255)) rows).
Proof.
  assert (Hb : 1 <= Activation.bits (Activation.parse_args both_flags) <= 31)
    by (simpl; lia).
  destruct (@unsigned_flag_overrides lcg posix_names both_flags fresh_world Hb)
    as (Hs & Hu & Hr & Hrun).
  split; [exact Hs|]. split; [exact Hu|]. split; [exact Hr|].
  apply Hrun. simpl. lia.
Defined.

(** [--len 3 --bits 8 --signed --unsigned], run: the three values lie in
    [0, 255] and the summary names that range; without [--unsigned] the
    same seed gives values of [-128, 127]. *)
Example both_flags_len_3_run :
  let r := @Activation.main lcg posix_names
             (Activation.parse_args both_flags_len_3) fresh_world in
  let r' := @Activation.main lcg posix_names
              (Activation.parse_args signed_flag_len_3) fresh_world in
  fst r = Ok tt
  /\ option_map parse_file (fs (snd r) !! "Player-Data/Input-P0-0")
     = Some (Some [[27]; [184]; [145]])
  /\ last (stdout (snd r)) = Some "   LEN=3; value range: [0, 255]"
  /\ option_map parse_file (fs (snd r') !! "Player-Data/Input-P0-0")
     = Some (Some [[-101]; [56]; [17]])
  /\ last (stdout (snd r')) = Some "   LEN=3; value range: [-128, 127]".
Proof. vm_compute. repeat split. Qed.

Lemma of_nat_to_nat_pos (z : Z) : 0 < z -> Z.of_nat (Z.to_nat z) = z.
Proof. intros Hz. apply Z2Nat.id. lia. Qed.

Lemma Forall_width (rows : list (list Z)) (c : nat) (z : Z) :
  Z.of_nat c = z ->
  Forall (fun row => length row = c) rows ->
  Forall (fun row => Z.of_nat (length row) = z) rows.
Proof.
  intros Hc Hrows. induction Hrows as [|row rows Hrow _ IH]; constructor;
    [now rewrite Hrow | exact IH].
Qed.

(** C6, as the code has it: after an accepted run of the convolution
    generator the party-1 file has exactly [W_DIM] lines of exactly [W_DIM]
    integers each, and the party-0 file, when the two paths do not name
    the same file, has exactly [A_ROWS] lines of exactly [A_COLS] integers
    each; every line is ended by one line feed and its integers are
    separated by single spaces.  The condition is on the files, not on the
    spelling of the paths: [file_of] is whatever the file system resolves
    a path to, so that two spellings of one file ([Input-P0-0] and
    [./Input-P0-0], a symbolic link and its target) do not meet it. *)
Theorem convolution_file_shapes `{RandomSource} `{FileNames}
    (a : Conv.args) (w : world) :
  accepted (Convolution a) = true ->
  (exists c1,
     fs (snd (run (Convolution a) w))
       !! file_of (path_join (Conv.dir a) (Conv.p1_file a)) = Some c1
     /\ file_shape_ok c1 (Conv.w_dim a) (Conv.w_dim a) = true)
  /\ (file_of (path_join (Conv.dir a) (Conv.p0_file a))
        <> file_of (path_join (Conv.dir a) (Conv.p1_file a)) ->
      exists c0,
        fs (snd (run (Convolution a) w))
          !! file_of (path_join (Conv.dir a) (Conv.p0_file a)) = Some c0
        /\ file_shape_ok c0 (Conv.a_rows a) (Conv.a_cols a) = true).
Proof.
  intros Hacc.
  destruct (run_accepted _ w Hacc) as (w' & Hrun & Hfs & _).
  rewrite Hrun. cbn [snd]. rewrite Hfs.
  unfold accepted in Hacc. cbn [shape_ok] in Hacc.
  rewrite !andb_true_iff, !Z.ltb_lt in Hacc.
  destruct Hacc as [[[[[Hr Hc] Hw] _] _] _].
  unfold party_files, party_targets, party_data.
  cbn [party_paths map combine write_all fold_left fst snd].
  split.
  - eexists. split; [apply lookup_insert_eq|].
    apply file_shape_render.
    + rewrite draw_rows_length. now apply of_nat_to_nat_pos.
    + eapply Forall_width; [|apply draw_rows_width]. now apply of_nat_to_nat_pos.
  - intros Hne. eexists. split.
    + rewrite lookup_insert_ne by congruence. apply lookup_insert_eq.
    + apply file_shape_render.
      * rewrite draw_rows_length. now apply of_nat_to_nat_pos.
      * eapply Forall_width; [|apply draw_rows_width].
        now apply of_nat_to_nat_pos.
Qed.

Lemma convolution_file_shapes_witness :
  (exists c1,
     fs (snd (@run lcg posix_names (Convolution conv_3x3_2) fresh_world))
       !! normpath "Player-Data/Input-P1-0" = Some c1
     /\ file_shape_ok c1 2 2 = true)
  /\ (exists c0,
        fs (snd (@run lcg posix_names (Convolution conv_3x3_2) fresh_world))
          !! normpath "Player-Data/Input-P0-0" = Some c0
        /\ file_shape_ok c0 3 3 = true).
Proof.
  destruct (@convolution_file_shapes lcg posix_names conv_3x3_2 fresh_world
              eq_refl) as [Hp1 Hp0].
  split; [exact Hp1|]. apply Hp0. vm_compute. discriminate.
Defined.

(** C6 as stated fails when both parties are given the same file name:
    the arguments are accepted and the run completes, but the kernel,
    written second, replaces the matrix, so that party 0's file holds
    [W_DIM = 2] lines of 2 integers instead of [A_ROWS = 3] lines of
    [A_COLS = 3]. *)
Lemma convolution_same_file_counterexample :
  accepted (Convolution conv_same_file) = true
  /\ fst (@run lcg posix_names (Convolution conv_same_file) fresh_world) = Ok tt
  /\ fs (snd (@run lcg posix_names (Convolution conv_same_file) fresh_world))
       !! normpath (path_join (Conv.dir conv_same_file)
                      (Conv.p0_file conv_same_file))
     = Some ("0 9" +:+ nl +:+ "14 15" +:+ nl)
  /\ file_shape_ok ("0 9" +:+ nl +:+ "14 15" +:+ nl)
       (Conv.a_rows conv_same_file) (Conv.a_cols conv_same_file) = false.
Proof. vm_compute. repeat split. Qed.

(** The same loss without the same spelling: with [--p1-file ./Input-P0-0]
    the two path strings differ and still name one file, which ends up
    holding the kernel. *)
Example convolution_aliased_paths :
  let p0 := path_join (Conv.dir conv_dot_alias) (Conv.p0_file conv_dot_alias) in
  let p1 := path_join (Conv.dir conv_dot_alias) (Conv.p1_file conv_dot_alias) in
  let r := @run lcg posix_names (Convolution conv_dot_alias) fresh_world in
  p0 = "Player-Data/Input-P0-0"
  /\ p1 = "Player-Data/./Input-P0-0"
  /\ normpath p0 = normpath p1
  /\ fst r = Ok tt
  /\ fs (snd r) !! normpath p0 = Some ("0 9" +:+ nl +:+ "14 15" +:+ nl)
  /\ file_shape_ok ("0 9" +:+ nl +:+ "14 15" +:+ nl) 3 3 = false.
Proof. vm_compute. repeat split. Qed.

(** C7, as the code has it: after a run of the linear-layer generator with
    a positive [n] and an accepted bit width, the party-1 file has exactly
    [n + 1] lines of exactly [n] integers each, and read row by row it
    holds the draws that follow the first [n]: the [n] rows of the matrix
    first, the bias, drawn last, on the last line.  The party-0 file, when
    the two paths do not name the same file (a condition on the files
    [file_of] resolves the paths to, not on their spelling), has exactly
    one line of [n] integers, the first [n] draws. *)
Theorem linear_file_shapes `{RandomSource} `{FileNames}
    (a : Linear.args) (w : world) :
  0 < Linear.n a ->
  bits_ok (Linear.bits a) = true ->
  let sc := LinearLayer a in
  let stream :=
    fst (draws (fst (value_bounds sc)) (snd (value_bounds sc))
           (draw_count sc) (rng_seed (Linear.seed a))) in
  (exists c1 rows1,
     fs (snd (run sc w)) !! file_of (path_join (Linear.dir a) (Linear.p1_file a))
       = Some c1
     /\ file_shape_ok c1 (Linear.n a + 1) (Linear.n a) = true
     /\ parse_file c1 = Some rows1
     /\ concat rows1 = drop (Z.to_nat (Linear.n a)) stream)
  /\ (file_of (path_join (Linear.dir a) (Linear.p0_file a))
        <> file_of (path_join (Linear.dir a) (Linear.p1_file a)) ->
      exists c0 rows0,
        fs (snd (run sc w))
          !! file_of (path_join (Linear.dir a) (Linear.p0_file a))
          = Some c0
        /\ file_shape_ok c0 1 (Linear.n a) = true
        /\ parse_file c0 = Some rows0
        /\ concat rows0 = take (Z.to_nat (Linear.n a)) stream).
Proof.
  intros Hn Hbits sc stream.
  assert (Hacc : accepted sc = true) by exact Hbits.
  destruct (run_accepted _ w Hacc) as (w' & Hrun & Hfs & _).
  rewrite Hrun. cbn [snd]. rewrite Hfs.
  unfold party_files, party_targets, party_data.
  cbn [party_paths map combine write_all fold_left fst snd sc].
  set (x := draws _ _ (Z.to_nat (Linear.n a)) _).
  set (W := draw_rows _ _ _ _ (snd x)).
  set (b := draws _ _ _ (snd W)).
  assert (Hflat : (fst x ++ concat (fst W ++ [fst b]))%list = stream).
  { pose proof (party_data_flat sc) as Hf. unfold party_data in Hf.
    cbn [concat sc] in Hf. rewrite !app_nil_r in Hf. exact Hf. }
  assert (Hx : length (fst x) = Z.to_nat (Linear.n a)) by apply draws_length.
  assert (HW : length (fst W) = Z.to_nat (Linear.n a))
    by apply draw_rows_length.
  assert (HWw : Forall (fun row => length row = Z.to_nat (Linear.n a)) (fst W))
    by apply draw_rows_width.
  assert (Hb : length (fst b) = Z.to_nat (Linear.n a)) by apply draws_length.
  split.
  - exists (render_rows (fst W ++ [fst b])), (fst W ++ [fst b])%list.
    split; [apply lookup_insert_eq|].
    split; [|split; [apply parse_file_render_rows|]].
    + apply file_shape_render.
      * rewrite length_app, HW. simpl. lia.
      * apply Forall_app. split.
        -- eapply Forall_width; [|exact HWw].
           now apply of_nat_to_nat_pos.
        -- constructor; [|constructor]. rewrite Hb.
           now apply of_nat_to_nat_pos.
    + rewrite <- Hflat. now rewrite drop_app_length'.
  - intros Hne. exists (render_rows [fst x]), [fst x].
    split; [rewrite lookup_insert_ne by congruence; apply lookup_insert_eq|].
    split; [|split; [apply parse_file_render_rows|]].
    + apply file_shape_render; [reflexivity|].
      constructor; [|constructor]. rewrite Hx. now apply of_nat_to_nat_pos.
    + rewrite <- Hflat. cbn [concat]. rewrite app_nil_r.
      now rewrite take_app_length'.
Qed.

Lemma linear_file_shapes_witness :
  (exists c1 rows1,
     fs (snd (@run lcg posix_names (LinearLayer linear_n_2) fresh_world))
       !! normpath "Player-Data/Input-P1-0" = Some c1
     /\ file_shape_ok c1 3 2 = true
     /\ parse_file c1 = Some rows1
     /\ concat rows1 = drop 2 (fst (@draws lcg (-8) 7 8 (42 : @rng_state lcg))))
  /\ (exists c0 rows0,
        fs (snd (@run lcg posix_names (LinearLayer linear_n_2) fresh_world))
          !! normpath "Player-Data/Input-P0-0" = Some c0
        /\ file_shape_ok c0 1 2 = true
        /\ parse_file c0 = Some rows0
        /\ concat rows0
           = take 2 (fst (@draws lcg (-8) 7 8 (42 : @rng_state lcg)))).
Proof.
  assert (Hn : 0 < Linear.n linear_n_2) by (simpl; lia).
  destruct (@linear_file_shapes lcg posix_names linear_n_2 fresh_world
              Hn eq_refl) as [Hp1 Hp0].
  split; [exact Hp1|]. apply Hp0. vm_compute. discriminate.
Defined.

(** C7 as stated fails when both parties are given the same file name:
    the run completes, but the matrix and the bias, written second,
    replace the vector, so that party 0's file holds [n + 1 = 3] lines
    instead of one. *)
Lemma linear_same_file_counterexample :
  0 < Linear.n linear_same_file
  /\ fst (@run lcg posix_names (LinearLayer linear_same_file) fresh_world) = Ok tt
  /\ fs (snd (@run lcg posix_names (LinearLayer linear_same_file) fresh_world))
       !! normpath (path_join (Linear.dir linear_same_file)
                      (Linear.p0_file linear_same_file))
     = Some ("-7 -2" +:+ nl +:+ "-1 -4" +:+ nl +:+ "5 -6" +:+ nl)
  /\ file_shape_ok ("-7 -2" +:+ nl +:+ "-1 -4" +:+ nl +:+ "5 -6" +:+ nl)
       1 (Linear.n linear_same_file) = false.
Proof. vm_compute. repeat split. Qed.

Example linear_aliased_paths :
  let p0 :=
    path_join (Linear.dir linear_updir_alias)
      (Linear.p0_file linear_updir_alias) in
  let p1 :=
    path_join (Linear.dir linear_updir_alias)
      (Linear.p1_file linear_updir_alias) in
  let r := @run lcg posix_names (LinearLayer linear_updir_alias) fresh_world in
  p0 = "Player-Data/Input-P0-0"
  /\ p1 = "Player-Data/../Player-Data/Input-P0-0"
  /\ normpath p0 = normpath p1
  /\ fst r = Ok tt
  /\ option_map parse_file (fs (snd r) !! normpath p0)
     = Some (Some [[-7; -2]; [-1; -4]; [5; -6]]).
Proof. vm_compute. repeat split. Qed.

(** The linear layer with [--n 2]: one line for [x], two rows of [W] and
    the bias on the third line of party 1's file. *)
Example linear_n_2_run :
  let r := @run lcg posix_names (LinearLayer linear_n_2) fresh_world in
  fst r = Ok tt
  /\ option_map parse_file (fs (snd r) !! "Player-Data/Input-P0-0")
     = Some (Some [[3; 0]])
  /\ option_map parse_file (fs (snd r) !! "Player-Data/Input-P1-0")
     = Some (Some [[-7; -2]; [-1; -4]; [5; -6]]).
Proof. vm_compute. repeat split. Qed.

(** The threshold generator writes one value per line, signed by default. *)
Example threshold_len_5_run :
  let r := @run lcg posix_names (Threshold threshold_len_5) fresh_world in
  fst r = Ok tt
  /\ option_map parse_file (fs (snd r) !! "Player-Data/Input-P0-0")
     = Some (Some [[-101]; [56]; [17]; [118]; [119]])
  /\ stdout (snd r)
     = ["✔ Wrote Party0: Player-Data/Input-P0-0  (19 bytes)";
        "   LEN=5; value range: [-128, 127]"].
Proof. vm_compute. repeat split. Qed.

(** ** Further properties of the generators *)

Section Steps.
Context `{RandomSource} `{FileNames}.

Lemma summary_quiet sc : quiet (summary sc).
Proof. destruct sc; unfold summary; quiet_tac. Qed.

(** An accepted run of the threshold generator is its summary block run
    in the world the write phase leaves. *)
Lemma threshold_steps a w :
  accepted (Threshold a) = true ->
  Activation.main a w =
  try_except_Exception (summary (Threshold a)) (ret tt)
    (written_world (Threshold a) w).
Proof.
  intros Hacc. pose proof (accepted_bounds _ Hacc) as Hlohi.
  unfold value_bounds in Hlohi. simpl in Hlohi.
  unfold accepted in Hacc. cbn [shape_ok bit_width] in Hacc.
  apply andb_prop in Hacc as [Hlen Hbits]. apply Z.ltb_lt in Hlen.
  unfold Activation.main, summary, written_world, value_bounds.
  cbn [bit_width signedness prng_seed output_dir draw_count].
  replace (Activation.len a <=? 0) with false by (symmetry; apply Z.leb_gt; lia).
  rewrite (bind_ok _ _ w tt (set_rng (rng_seed (Activation.seed a)) w))
    by reflexivity.
  rewrite bits_check_iff, Hbits. cbn [negb].
  unfold party_files, party_data, value_bounds.
  cbn [bit_width signedness prng_seed party_paths].
  destruct (value_range (Activation.bits a) (Activation.use_signed a))
    as [lo hi] eqn:Hrange.
  cbn [fst snd] in *.
  rewrite (bind_ok _ _ _ tt
    (set_dirs (made_dirs (Activation.dir a) ∪ dirs w)
       (set_rng (rng_seed (Activation.seed a)) w))) by reflexivity.
  set (p0 := path_join (Activation.dir a) (Activation.p0_file a)).
  match goal with
  | |- context [bind (bind (open_w p0) ?k) ?rest] =>
      rewrite (bind_ok (bind (open_w p0) k) rest _ tt
        {| rng := snd (draws lo hi (Z.to_nat (Activation.len a))
                         (rng_seed (Activation.seed a)));
           fs := <[file_of p0 := unlines (map str
                    (fst (draws lo hi (Z.to_nat (Activation.len a))
                            (rng_seed (Activation.seed a)))))]> (fs w);
           dirs := made_dirs (Activation.dir a) ∪ dirs w;
           stdout := stdout w; env := env w |})
  end.
  2:{ rewrite (bind_ok (open_w p0) _ _ (file_of p0) _ eq_refl).
      unfold for_range.
      rewrite (repeat_write_value lo hi (file_of p0) _ _ "" Hlohi)
        by (simpl; apply lookup_insert_eq).
      simpl. now rewrite insert_insert_eq. }
  cbn [map combine write_all fold_left fst snd].
  rewrite render_rows_singletons. reflexivity.
Qed.

Lemma convolution_steps a w :
  accepted (Convolution a) = true ->
  Conv.main a w =
  try_except_Exception (summary (Convolution a)) (ret tt)
    (written_world (Convolution a) w).
Proof.
  intros Hacc. pose proof (accepted_bounds _ Hacc) as Hlohi.
  unfold value_bounds in Hlohi. simpl in Hlohi.
  unfold accepted in Hacc. cbn [shape_ok bit_width] in Hacc.
  rewrite !andb_true_iff in Hacc.
  destruct Hacc as [[[[[Hr Hc] Hw] Hwr] Hwc] Hbits].
  apply Z.ltb_lt in Hr, Hc, Hw. apply Z.leb_le in Hwr, Hwc.
  unfold Conv.main, summary, written_world, value_bounds.
  cbn [bit_width signedness prng_seed output_dir draw_count].
  replace (Conv.a_rows a <=? 0) with false by (symmetry; apply Z.leb_gt; lia).
  replace (Conv.a_cols a <=? 0) with false by (symmetry; apply Z.leb_gt; lia).
  replace (Conv.w_dim a <=? 0) with false by (symmetry; apply Z.leb_gt; lia).
  replace (Conv.w_dim a >? Conv.a_rows a) with false
    by (symmetry; rewrite Z.gtb_ltb; apply Z.ltb_ge; lia).
  replace (Conv.w_dim a >? Conv.a_cols a) with false
    by (symmetry; rewrite Z.gtb_ltb; apply Z.ltb_ge; lia).
  cbn [orb].
  rewrite (bind_ok _ _ w tt (set_rng (rng_seed (Conv.seed a)) w))
    by reflexivity.
  rewrite bits_check_iff, Hbits. cbn [negb].
  unfold party_files, party_data, value_bounds.
  cbn [bit_width signedness prng_seed party_paths].
  destruct (value_range (Conv.bits a) (Conv.signed a)) as [lo hi] eqn:Hrange.
  cbn [fst snd] in *.
  rewrite (bind_ok _ _ _ tt
    (set_dirs (made_dirs (Conv.dir a) ∪ dirs w)
       (set_rng (rng_seed (Conv.seed a)) w))) by reflexivity.
  set (p0 := path_join (Conv.dir a) (Conv.p0_file a)).
  set (p1 := path_join (Conv.dir a) (Conv.p1_file a)).
  rewrite (bind_ok _ _ _ _ _ (open_rows_run lo hi p0 _ _ _ Hlohi)).
  rewrite (bind_ok _ _ _ _ _ (open_rows_run lo hi p1 _ _ _ Hlohi)).
  cbn [map combine write_all fold_left fst snd rng fs dirs stdout env
       set_rng set_dirs].
  rewrite draws_add, !draw_rows_state. reflexivity.
Qed.

Lemma linear_steps a w :
  accepted (LinearLayer a) = true ->
  Linear.main a w =
  try_except_Exception (summary (LinearLayer a)) (ret tt)
    (written_world (LinearLayer a) w).
Proof.
  intros Hacc. pose proof (accepted_bounds _ Hacc) as Hlohi.
  unfold value_bounds in Hlohi. simpl in Hlohi.
  unfold accepted in Hacc. cbn [shape_ok bit_width andb] in Hacc.
  unfold Linear.main, summary, written_world, value_bounds.
  cbn [bit_width signedness prng_seed output_dir draw_count].
  rewrite (bind_ok _ _ w tt (set_rng (rng_seed (Linear.seed a)) w))
    by reflexivity.
  rewrite bits_check_iff, Hacc. cbn [negb].
  unfold party_files, party_data, value_bounds.
  cbn [bit_width signedness prng_seed party_paths].
  destruct (value_range (Linear.bits a) (Linear.signed a)) as [lo hi] eqn:Hrange.
  cbn [fst snd] in *.
  rewrite (bind_ok _ _ _ tt
    (set_dirs (made_dirs (Linear.dir a) ∪ dirs w)
       (set_rng (rng_seed (Linear.seed a)) w))) by reflexivity.
  set (p0 := path_join (Linear.dir a) (Linear.p0_file a)).
  set (p1 := path_join (Linear.dir a) (Linear.p1_file a)).
  rewrite (bind_ok _ _ _ _ _ (open_row_run lo hi p0 _ _ Hlohi)).
  rewrite (bind_ok _ _ _ _ _ (open_rows_row_run lo hi p1 _ _ _ Hlohi)).
  cbn [map combine write_all fold_left fst snd rng fs dirs stdout env
       set_rng set_dirs].
  rewrite !draws_add, !draw_rows_state. reflexivity.
Qed.

(** Every accepted run is the summary block run in the world the write
    phase leaves. *)
Lemma run_steps sc w :
  accepted sc = true ->
  run sc w =
  try_except_Exception (summary sc) (ret tt) (written_world sc w).
Proof.
  destruct sc as [a|a|a]; cbn [run].
  - apply threshold_steps.
  - apply convolution_steps.
  - apply linear_steps.
Qed.

End Steps.

Section FurtherFacts.
Context `{RandomSource} `{FileNames}.

(** After an accepted run the world is the one the write phase leaves, up
    to what the summary printed. *)
Lemma run_final sc w :
  accepted sc = true ->
  exists w', run sc w = (Ok tt, w') /\ only_printed (written_world sc w) w'.
Proof.
  intros Hacc. rewrite (run_steps sc w Hacc).
  apply try_except_quiet, summary_quiet.
Qed.

Lemma write_all_lookup_cases (files : list (string * string)) m p :
  (In p (map fst files)
   /\ exists c, forall m', write_all files m' !! p = Some c)
  \/ (~ In p (map fst files) /\ write_all files m !! p = m !! p).
Proof.
  destruct (in_dec string_dec p (map fst files)) as [Hin|Hout].
  - left. split; [exact Hin|].
    destruct (write_all_written files p Hin) as (c & _ & Hc). now exists c.
  - right. split; [exact Hout | now apply write_all_other].
Qed.

(** Writing the same files again changes nothing. *)
Lemma write_all_idem (files : list (string * string)) m :
  write_all files (write_all files m) = write_all files m.
Proof.
  apply map_eq. intros p.
  destruct (write_all_lookup_cases files m p) as [[_ (c & Hc)]|[Hout Hsame]].
  - now rewrite !Hc.
  - now rewrite (write_all_other _ _ _ Hout).
Qed.

End FurtherFacts.

(** X2: arguments that fail a check are rejected whatever the world the
    run starts in: the run ends with [SystemExit] carrying the message of
    the first check that fails, in the order positivity, kernel size, bit
    width, with a non-zero exit status, and it has touched neither a file
    nor a directory nor the standard output.  Hence a run that completes,
    or that exits with status 0, was given arguments that pass every
    check.  (The converse is not claimed: arguments that pass every check
    can still make [os.makedirs] or [open] fail, which is outside the
    checks.) *)
Theorem rejected_arguments_exit `{RandomSource} `{FileNames}
    (sc : scenario) (w : world) :
  (accepted sc = false ->
     fst (run sc w) = Raise (SystemExit (rejection_message sc))
     /\ exit_status (fst (run sc w)) = 1
     /\ fs (snd (run sc w)) = fs w
     /\ dirs (snd (run sc w)) = dirs w
     /\ stdout (snd (run sc w)) = stdout w)
  /\ (fst (run sc w) = Ok tt -> accepted sc = true)
  /\ (exit_status (fst (run sc w)) = 0 -> accepted sc = true).
Proof.
  destruct (accepted sc) eqn:Hacc.
  - split; [discriminate | split; reflexivity].
  - destruct (run_not_accepted sc w Hacc) as (Hrun & Hfs & Hdirs & Hout).
    rewrite Hrun, Hfs, Hdirs. cbn [exit_status].
    split; [intros _; repeat split; exact Hout|].
    split; intros Habs; discriminate Habs.
Qed.

(** X3: whatever the arguments, a run leaves every file other than the
    files the party paths name as it was, removes no file, removes no
    directory, and makes no directory other than the output directory and
    the directories on the way to it (the chain [os.makedirs] walks). *)
Theorem run_touches_only_party_files `{RandomSource} `{FileNames}
    (sc : scenario) (w : world) :
  (forall q, ~ In q (party_targets sc) ->
     fs (snd (run sc w)) !! q = fs w !! q)
  /\ (forall q, is_Some (fs w !! q) -> is_Some (fs (snd (run sc w)) !! q))
  /\ dirs w ⊆ dirs (snd (run sc w))
  /\ dirs (snd (run sc w)) ⊆ made_dirs (output_dir sc) ∪ dirs w.
Proof.
  destruct (accepted sc) eqn:Hacc.
  - destruct (run_accepted sc w Hacc) as (w' & Hrun & Hfs & Hdirs & _).
    rewrite Hrun. cbn [snd]. rewrite Hfs, Hdirs.
    split; [|split; [|split]].
    + intros q Hq. apply write_all_other. now rewrite party_files_paths.
    + intros q Hq.
      destruct (write_all_lookup_cases (party_files sc) (fs w) q)
        as [[_ (c & Hc)]|[_ Hsame]].
      * rewrite Hc. now eexists.
      * now rewrite Hsame.
    + apply union_subseteq_r.
    + reflexivity.
  - destruct (run_not_accepted sc w Hacc) as (_ & Hfs & Hdirs & _).
    rewrite Hfs, Hdirs. split; [|split; [|split]]; auto.
    apply union_subseteq_r.
Qed.

(** [--dir out/run1]: [os.makedirs] makes [out] as well as [out/run1]. *)
Example nested_output_directory :
  dirs (snd (@run lcg posix_names (Threshold threshold_nested_dir)
               fresh_world))
  = {[ "out"; "out/run1" ]}.
Proof. vm_compute. reflexivity. Qed.

(** X10: running a generator a second time on the same arguments leaves
    the files and the directories exactly as the first run left them. *)
Theorem rerun_changes_nothing `{RandomSource} `{FileNames}
    (sc : scenario) (w : world) :
  fs (snd (run sc (snd (run sc w)))) = fs (snd (run sc w))
  /\ dirs (snd (run sc (snd (run sc w)))) = dirs (snd (run sc w)).
Proof.
  destruct (accepted sc) eqn:Hacc.
  - destruct (run_accepted sc w Hacc) as (w1 & Hrun1 & Hfs1 & Hdirs1 & _).
    rewrite Hrun1. cbn [snd].
    destruct (run_accepted sc w1 Hacc) as (w2 & Hrun2 & Hfs2 & Hdirs2 & _).
    rewrite Hrun2. cbn [snd]. rewrite Hfs2, Hdirs2, Hfs1, Hdirs1.
    split; [apply write_all_idem|].
    rewrite (assoc_L (∪)). now rewrite (idemp_L (∪)).
  - destruct (run_not_accepted sc (snd (run sc w)) Hacc) as (_ & Hfs & Hdirs & _).
    now rewrite Hfs, Hdirs.
Qed.

(** X4: after an accepted run of the threshold generator the party-0 file
    has exactly [LEN] lines of exactly one integer each, and read line by
    line it holds the first [LEN] values drawn from the seeded generator,
    in the order drawn. *)
Theorem threshold_file_shape `{RandomSource} `{FileNames}
    (a : Activation.args) (w : world) :
  accepted (Threshold a) = true ->
  exists c rows,
    fs (snd (run (Threshold a) w))
      !! file_of (path_join (Activation.dir a) (Activation.p0_file a)) = Some c
    /\ file_shape_ok c (Activation.len a) 1 = true
    /\ parse_file c = Some rows
    /\ concat rows =
       fst (draws (fst (value_bounds (Threshold a)))
              (snd (value_bounds (Threshold a)))
              (Z.to_nat (Activation.len a)) (rng_seed (Activation.seed a))).
Proof.
  intros Hacc.
  destruct (run_accepted _ w Hacc) as (w' & Hrun & Hfs & _).
  rewrite Hrun. cbn [snd]. rewrite Hfs.
  unfold accepted in Hacc. cbn [shape_ok] in Hacc.
  apply andb_prop in Hacc as [Hlen _]. apply Z.ltb_lt in Hlen.
  unfold party_files, party_targets, party_data.
  cbn [party_paths map combine write_all fold_left fst snd prng_seed].
  set (vs := fst (draws _ _ _ _)).
  assert (Hvs : length vs = Z.to_nat (Activation.len a)) by apply draws_length.
  exists (render_rows (map (fun v => [v]) vs)), (map (fun v => [v]) vs).
  split; [apply lookup_insert_eq|].
  split; [|split; [apply parse_file_render_rows | apply concat_singletons]].
  apply file_shape_render.
  - rewrite length_map, Hvs. now apply of_nat_to_nat_pos.
  - apply List.Forall_forall. intros row Hrow.
    apply in_map_iff in Hrow as (v & <- & _). reflexivity.
Qed.

Lemma threshold_file_shape_witness :
  exists c rows,
    fs (snd (@run lcg posix_names (Threshold threshold_len_5) fresh_world))
      !! normpath "Player-Data/Input-P0-0" = Some c
    /\ file_shape_ok c 5 1 = true
    /\ parse_file c = Some rows
    /\ concat rows = fst (@draws lcg (-128) 127 5 (42 : @rng_state lcg)).
Proof.
  apply (@threshold_file_shape lcg posix_names threshold_len_5 fresh_world).
  reflexivity.
Defined.

(** X7: an accepted run leaves the random module in the state reached from
    the seed by exactly [LEN] draws (threshold), [A_ROWS * A_COLS +
    W_DIM * W_DIM] draws (convolution) or [n + n * n + n] draws (linear
    layer): the summary draws nothing and no value is drawn twice. *)
Theorem accepted_run_generator_state `{RandomSource} `{FileNames}
    (sc : scenario) (w : world) :
  accepted sc = true ->
  rng (snd (run sc w)) =
  snd (draws (fst (value_bounds sc)) (snd (value_bounds sc))
         (draw_count sc) (rng_seed (prng_seed sc))).
Proof.
  intros Hacc.
  destruct (run_final sc w Hacc) as (w' & Hrun & Hrng & _).
  rewrite Hrun. cbn [snd]. exact Hrng.
Qed.

Lemma accepted_run_generator_state_witness :
  rng (snd (@run lcg posix_names (Convolution conv_3x3_2) used_world)) =
  snd (@draws lcg 0 15 13 (42 : @rng_state lcg)).
Proof.
  apply (@accepted_run_generator_state lcg posix_names (Convolution conv_3x3_2) used_world).
  reflexivity.
Defined.

(** X6: the bit width is checked after [random.seed]: when the shape of
    the arguments is in order and the bit width is not, the run fails but
    the random module has been reseeded with the configured seed. *)
Theorem bit_width_checked_after_seeding `{RandomSource} `{FileNames}
    (sc : scenario) (w : world) :
  shape_ok sc = true ->
  bits_ok (bit_width sc) = false ->
  fst (run sc w) = Raise (SystemExit bits_message)
  /\ rng (snd (run sc w)) = rng_seed (prng_seed sc).
Proof.
  intros Hshape Hbits.
  assert (Hchk : (bit_width sc <=? 0) || (bit_width sc >? 31) = true)
    by (rewrite bits_check_iff, Hbits; reflexivity).
  destruct sc as [a|a|a]; cbn [run bit_width shape_ok prng_seed] in *.
  - apply Z.ltb_lt in Hshape. unfold Activation.main.
    replace (Activation.len a <=? 0) with false
      by (symmetry; apply Z.leb_gt; lia).
    unfold bind at 1. cbn [random_seed]. rewrite Hchk. split; reflexivity.
  - rewrite !andb_true_iff, !Z.ltb_lt, !Z.leb_le in Hshape.
    unfold Conv.main.
    replace (Conv.a_rows a <=? 0) with false by (symmetry; apply Z.leb_gt; lia).
    replace (Conv.a_cols a <=? 0) with false by (symmetry; apply Z.leb_gt; lia).
    replace (Conv.w_dim a <=? 0) with false by (symmetry; apply Z.leb_gt; lia).
    replace (Conv.w_dim a >? Conv.a_rows a) with false
      by (symmetry; rewrite Z.gtb_ltb; apply Z.ltb_ge; lia).
    replace (Conv.w_dim a >? Conv.a_cols a) with false
      by (symmetry; rewrite Z.gtb_ltb; apply Z.ltb_ge; lia).
    cbn [orb]. unfold bind at 1. cbn [random_seed]. rewrite Hchk.
    split; reflexivity.
  - unfold Linear.main. unfold bind at 1. cbn [random_seed]. rewrite Hchk.
    split; reflexivity.
Qed.

Lemma bit_width_checked_after_seeding_witness :
  fst (@run lcg posix_names (Convolution conv_bits_32) fresh_world)
    = Raise (SystemExit bits_message)
  /\ rng (snd (@run lcg posix_names (Convolution conv_bits_32) fresh_world))
     = (42 : @rng_state lcg).
Proof.
  apply (@bit_width_checked_after_seeding lcg posix_names (Convolution conv_bits_32)
           fresh_world); reflexivity.
Defined.

Section SummaryRuns.
Context `{RandomSource} `{FileNames}.

Lemma stat_size_ok p w c :
  stat_error (env w) p = None ->
  fs w !! file_of p = Some c ->
  stat_size p w = (Ok (Z.of_nat (String.length c)), w).
Proof. intros He Hc. unfold stat_size. now rewrite He, Hc. Qed.

Lemma stat_size_fails p w e :
  stat_error (env w) p = Some e -> stat_size p w = (Raise (Exc e), w).
Proof. intros He. unfold stat_size. now rewrite He. Qed.

(** [stat] raises, or returns the length of the file; it never changes
    the world. *)
Lemma stat_size_cases p w :
  (exists e, stat_size p w = (Raise (Exc e), w))
  \/ (exists c, fs w !! file_of p = Some c
                /\ stat_size p w = (Ok (Z.of_nat (String.length c)), w)).
Proof.
  unfold stat_size. destruct (stat_error (env w) p) as [e|].
  - left. now exists e.
  - destruct (fs w !! file_of p) as [c|].
    + right. now exists c.
    + left. now exists OSError.
Qed.

(** [print] raises and prints nothing, or appends its line. *)
Lemma print_cases l w :
  (exists e, print l w = (Raise (Exc e), w))
  \/ print l w = (Ok tt, set_stdout (stdout w ++ [l]) w).
Proof.
  unfold print. destruct (print_error (env w) l) as [e|].
  - left. now exists e.
  - now right.
Qed.

Lemma file_size_lookup (m : gmap string string) p c :
  m !! file_of p = Some c -> file_size m p = Z.of_nat (String.length c).
Proof. intros Hc. unfold file_size. now rewrite Hc. Qed.

(** The summary block where nothing fails: every line is printed. *)
Lemma summary_no_faults sc W :
  env W = no_faults ->
  (forall p, In p (party_paths sc) -> is_Some (fs W !! file_of p)) ->
  try_except_Exception (summary sc) (ret tt) W =
  (Ok tt, set_stdout (stdout W ++ summary_lines sc (fs W)) W).
Proof.
  intros Henv Hfiles.
  assert (Hstat : forall p, stat_error (env W) p = None)
    by (intros p; now rewrite Henv).
  assert (Hprint : forall l w', env w' = no_faults ->
            print l w' = (Ok tt, set_stdout (stdout w' ++ [l]) w')).
  { intros l w' He. unfold print. now rewrite He. }
  destruct sc as [a|a|a]; cbn [party_paths] in Hfiles;
    unfold try_except_Exception, summary, summary_lines.
  - destruct (Hfiles _ (or_introl eq_refl)) as (c0 & Hc0).
    rewrite (bind_ok _ _ _ _ _ (stat_size_ok _ _ _ (Hstat _) Hc0)).
    rewrite (bind_ok _ _ _ _ _ (Hprint _ _ Henv)).
    rewrite (Hprint _ (set_stdout _ W) Henv).
    rewrite (file_size_lookup _ _ _ Hc0).
    unfold set_stdout. cbn [rng fs dirs stdout env].
    now rewrite <- app_assoc.
  - destruct (Hfiles _ (or_introl eq_refl)) as (c0 & Hc0).
    destruct (Hfiles _ (or_intror (or_introl eq_refl))) as (c1 & Hc1).
    rewrite (bind_ok _ _ _ _ _ (stat_size_ok _ _ _ (Hstat _) Hc0)).
    rewrite (bind_ok _ _ _ _ _ (stat_size_ok _ _ _ (Hstat _) Hc1)).
    rewrite (bind_ok _ _ _ _ _ (Hprint _ _ Henv)).
    rewrite (bind_ok _ _ _ _ _ (Hprint _ (set_stdout _ W) Henv)).
    rewrite (Hprint _ (set_stdout _ (set_stdout _ W)) Henv).
    rewrite (file_size_lookup _ _ _ Hc0), (file_size_lookup _ _ _ Hc1).
    unfold set_stdout. cbn [rng fs dirs stdout env].
    now rewrite <- !app_assoc.
  - destruct (Hfiles _ (or_introl eq_refl)) as (c0 & Hc0).
    destruct (Hfiles _ (or_intror (or_introl eq_refl))) as (c1 & Hc1).
    rewrite (bind_ok _ _ _ _ _ (stat_size_ok _ _ _ (Hstat _) Hc0)).
    rewrite (bind_ok _ _ _ _ _ (stat_size_ok _ _ _ (Hstat _) Hc1)).
    rewrite (bind_ok _ _ _ _ _ (Hprint _ _ Henv)).
    rewrite (bind_ok _ _ _ _ _ (Hprint _ (set_stdout _ W) Henv)).
    rewrite (Hprint _ (set_stdout _ (set_stdout _ W)) Henv).
    rewrite (file_size_lookup _ _ _ Hc0), (file_size_lookup _ _ _ Hc1).
    unfold set_stdout. cbn [rng fs dirs stdout env].
    now rewrite <- !app_assoc.
Qed.

(** The summary block where a [stat] fails: nothing is printed. *)
Lemma summary_stat_fails sc W p e :
  In p (party_paths sc) ->
  stat_error (env W) p = Some e ->
  try_except_Exception (summary sc) (ret tt) W = (Ok tt, W).
Proof.
  intros Hp He.
  destruct sc as [a|a|a]; cbn [party_paths] in Hp;
    unfold try_except_Exception, summary.
  - destruct Hp as [<-|[]].
    now rewrite (bind_raise _ _ _ _ _ (stat_size_fails _ _ _ He)).
  - destruct Hp as [<-|[<-|[]]].
    + now rewrite (bind_raise _ _ _ _ _ (stat_size_fails _ _ _ He)).
    + destruct (stat_size_cases (path_join (Conv.dir a) (Conv.p0_file a)) W)
        as [(e0 & Hs0)|(c0 & _ & Hs0)].
      * now rewrite (bind_raise _ _ _ _ _ Hs0).
      * rewrite (bind_ok _ _ _ _ _ Hs0).
        now rewrite (bind_raise _ _ _ _ _ (stat_size_fails _ _ _ He)).
  - destruct Hp as [<-|[<-|[]]].
    + now rewrite (bind_raise _ _ _ _ _ (stat_size_fails _ _ _ He)).
    + destruct (stat_size_cases (path_join (Linear.dir a) (Linear.p0_file a)) W)
        as [(e0 & Hs0)|(c0 & _ & Hs0)].
      * now rewrite (bind_raise _ _ _ _ _ Hs0).
      * rewrite (bind_ok _ _ _ _ _ Hs0).
        now rewrite (bind_raise _ _ _ _ _ (stat_size_fails _ _ _ He)).
Qed.

Lemma written_world_files sc w p :
  In p (party_paths sc) -> is_Some (fs (written_world sc w) !! file_of p).
Proof.
  intros Hp. apply party_targets_in in Hp.
  destruct (write_all_written _ _ Hp) as (c & _ & Hc).
  exists c. apply Hc.
Qed.

End SummaryRuns.

(** X8: in an environment where [stat] and [print] do not fail, an accepted
    run prints exactly the lines of its summary after what was printed
    before, and the size it reports for each party file is the length in
    bytes of the file the run left at that path. *)
Theorem summary_reports_file_sizes `{RandomSource} `{FileNames}
    (sc : scenario) (w : world) :
  accepted sc = true ->
  env w = no_faults ->
  stdout (snd (run sc w)) =
    (stdout w ++ summary_lines sc (fs (snd (run sc w))))%list
  /\ length (summary_lines sc (fs (snd (run sc w))))
     = S (length (party_paths sc)).
Proof.
  intros Hacc Henv. rewrite (run_steps sc w Hacc).
  rewrite (summary_no_faults sc (written_world sc w) Henv
             (written_world_files sc w)).
  split; [reflexivity | now destruct sc].
Qed.

Lemma summary_reports_file_sizes_witness :
  stdout (snd (@run lcg posix_names (Convolution conv_3x3_2) fresh_world)) =
    @summary_lines posix_names (Convolution conv_3x3_2)
      (fs (snd (@run lcg posix_names (Convolution conv_3x3_2) fresh_world)))
  /\ length (@summary_lines posix_names (Convolution conv_3x3_2)
               (fs (snd (@run lcg posix_names (Convolution conv_3x3_2) fresh_world))))
     = 3%nat.
Proof.
  apply (@summary_reports_file_sizes lcg posix_names (Convolution conv_3x3_2) fresh_world);
    reflexivity.
Defined.

(** X9: when [stat] fails on one of the party files, an accepted run still
    completes but prints no line of the summary at all: the sizes are read
    before the first line is printed.  The world is the one the write
    phase left. *)
Theorem stat_failure_prints_nothing `{RandomSource} `{FileNames}
    (sc : scenario) (w : world) (p : string) (e : exception) :
  accepted sc = true ->
  In p (party_paths sc) ->
  stat_error (env w) p = Some e ->
  run sc w = (Ok tt, written_world sc w)
  /\ stdout (snd (run sc w)) = stdout w.
Proof.
  intros Hacc Hp He. rewrite (run_steps sc w Hacc).
  rewrite (summary_stat_fails sc (written_world sc w) p e Hp He).
  split; reflexivity.
Qed.

Lemma stat_failure_prints_nothing_witness :
  @run lcg posix_names (Convolution conv_3x3_2) used_world
    = (Ok tt, @written_world lcg posix_names (Convolution conv_3x3_2) used_world)
  /\ stdout (snd (@run lcg posix_names (Convolution conv_3x3_2) used_world))
     = ["earlier output"].
Proof.
  apply (@stat_failure_prints_nothing lcg posix_names (Convolution conv_3x3_2) used_world
           "Player-Data/Input-P1-0" OSError).
  - reflexivity.
  - right. left. reflexivity.
  - reflexivity.
Defined.

(** X5: the linear-layer generator accepts any [n <= 0] with a bit width
    in range: every [range(n)] is empty, so the run draws no value at all
    (the random module is left freshly seeded) and each party file
    consists of a single line feed. *)
Theorem linear_nonpositive_n_writes_empty_lines `{RandomSource} `{FileNames}
    (a : Linear.args) (w : world) :
  Linear.n a <= 0 ->
  bits_ok (Linear.bits a) = true ->
  fst (run (LinearLayer a) w) = Ok tt
  /\ rng (snd (run (LinearLayer a) w)) = rng_seed (Linear.seed a)
  /\ fs (snd (run (LinearLayer a) w))
       !! file_of (path_join (Linear.dir a) (Linear.p0_file a)) = Some nl
  /\ fs (snd (run (LinearLayer a) w))
       !! file_of (path_join (Linear.dir a) (Linear.p1_file a)) = Some nl.
Proof.
  intros Hn Hbits.
  assert (Hacc : accepted (LinearLayer a) = true) by exact Hbits.
  destruct (run_final _ w Hacc) as (w' & Hrun & Hrng & Hfs & _).
  rewrite Hrun. cbn [fst snd]. rewrite Hrng, Hfs.
  assert (Hn0 : Z.to_nat (Linear.n a) = 0%nat) by lia.
  unfold written_world, party_files, party_targets, party_data, draw_count.
  cbn [rng fs party_paths prng_seed]. rewrite Hn0.
  cbn [draws draw_rows fst snd map combine write_all fold_left app
       Nat.add Nat.mul].
  change (render_rows [[]]) with nl.
  repeat split.
  - rewrite lookup_insert. case_decide; [reflexivity|].
    apply lookup_insert_eq.
  - apply lookup_insert_eq.
Qed.

Lemma linear_nonpositive_n_writes_empty_lines_witness :
  fst (@run lcg posix_names (LinearLayer linear_n_minus_3) fresh_world) = Ok tt
  /\ rng (snd (@run lcg posix_names (LinearLayer linear_n_minus_3) fresh_world))
     = (42 : @rng_state lcg)
  /\ fs (snd (@run lcg posix_names (LinearLayer linear_n_minus_3) fresh_world))
       !! normpath "Player-Data/Input-P0-0" = Some nl
  /\ fs (snd (@run lcg posix_names (LinearLayer linear_n_minus_3) fresh_world))
       !! normpath "Player-Data/Input-P1-0" = Some nl.
Proof.
  apply (@linear_nonpositive_n_writes_empty_lines lcg posix_names linear_n_minus_3
           fresh_world).
  - simpl. lia.
  - reflexivity.
Defined.

(** X11: the layout the row loops write (each value printed by [str],
    the values of a row joined by single spaces, one line feed after every
    row) is read back as exactly the rows written, so that two different
    lists of rows never give the same file. *)
Theorem party_file_round_trip (rows : list (list Z)) :
  parse_file (render_rows rows) = Some rows
  /\ file_lines (render_rows rows) = Some (map render_row rows)
  /\ (forall rows', render_rows rows' = render_rows rows -> rows' = rows).
Proof.
  split; [apply parse_file_render_rows|]. split.
  - unfold render_rows. apply file_lines_unlines.
    apply List.Forall_forall. intros l Hl.
    apply in_map_iff in Hl as (row & <- & _).
    apply occurs_join_str; [reflexivity | discriminate].
  - intros rows' Heq.
    pose proof (parse_file_render_rows rows') as Hp. rewrite Heq in Hp.
    rewrite parse_file_render_rows in Hp. now injection Hp.
Qed.

(** X12: for a bit width between 1 and 31 the range holds exactly
    [2^bits] values whatever the signedness, contains zero, has a negative
    lower end exactly when it is signed, and lies within the signed 32-bit
    integers. *)
Theorem value_range_size (bits : Z) (use_signed : bool) :
  1 <= bits <= 31 ->
  let lo := fst (value_range bits use_signed) in
  let hi := snd (value_range bits use_signed) in
  hi - lo + 1 = 2 ^ bits
  /\ lo <= 0 <= hi
  /\ (lo < 0 <-> use_signed = true)
  /\ - 2 ^ 31 <= lo
  /\ hi <= 2 ^ 31 - 1.
Proof.
  intros Hb lo hi. subst lo hi. rewrite (value_range_pow2 _ _ Hb).
  assert (Hhalf : 2 ^ bits = 2 * 2 ^ (bits - 1)).
  { replace bits with (Z.succ (bits - 1)) at 1 by lia.
    apply Z.pow_succ_r. lia. }
  assert (Hpos : 1 <= 2 ^ (bits - 1)).
  { change 1 with (2 ^ 0). apply Z.pow_le_mono_r; lia. }
  assert (Hmax : 2 ^ bits <= 2 ^ 31) by (apply Z.pow_le_mono_r; lia).
  destruct use_signed; cbn [fst snd].
  - repeat split; lia.
  - repeat split; try lia; intros Habs; first [lia | discriminate Habs].
Qed.

Lemma value_range_size_witness :
  snd (value_range 8 true) - fst (value_range 8 true) + 1 = 256
  /\ fst (value_range 8 true) <= 0 <= snd (value_range 8 true)
  /\ (fst (value_range 8 true) < 0 <-> true = true)
  /\ - 2 ^ 31 <= fst (value_range 8 true)
  /\ snd (value_range 8 true) <= 2 ^ 31 - 1.
Proof. apply (value_range_size 8 true). lia. Defined.

Ltac finish_prefix k :=
  exists k; eexists; split; [reflexivity|]; split;
    [ cbn [take stdout set_stdout]; rewrite ?app_nil_r, <- ?app_assoc;
      reflexivity
    | repeat split ].

Ltac print_step :=
  match goal with
  | |- context [bind (print ?l) _ ?w0] =>
      let Hp := fresh "Hp" in
      destruct (print_cases l w0) as [(? & Hp)|Hp];
        [ rewrite (bind_raise _ _ _ _ _ Hp)
        | rewrite (bind_ok _ _ _ _ _ Hp) ]
  | |- context [print ?l ?w0] =>
      let Hp := fresh "Hp" in
      destruct (print_cases l w0) as [(? & Hp)|Hp]; rewrite Hp
  end.

Ltac stat_step :=
  match goal with
  | |- context [bind (stat_size ?p) _ ?w0] =>
      let Hs := fresh "Hs" in
      let Hc := fresh "Hc" in
      destruct (stat_size_cases p w0) as [(? & Hs)|(? & Hc & Hs)];
        [ rewrite (bind_raise _ _ _ _ _ Hs)
        | rewrite (bind_ok _ _ _ _ _ Hs);
          rewrite (file_size_lookup _ _ _ Hc) ]
  end.

(** Whatever fails in the summary block, what it has printed is the
    beginning of the full summary. *)
Lemma summary_prefix `{RandomSource} `{FileNames} (sc : scenario) (W : world) :
  exists k w',
    try_except_Exception (summary sc) (ret tt) W = (Ok tt, w')
    /\ stdout w' = (stdout W ++ take k (summary_lines sc (fs W)))%list
    /\ only_printed W w'.
Proof.
  destruct sc as [a|a|a];
    unfold try_except_Exception, summary, summary_lines.
  - stat_step; [finish_prefix 0%nat|].
    print_step; [finish_prefix 0%nat|].
    print_step; [finish_prefix 1%nat | finish_prefix 2%nat].
  - stat_step; [finish_prefix 0%nat|].
    stat_step; [finish_prefix 0%nat|].
    print_step; [finish_prefix 0%nat|].
    print_step; [finish_prefix 1%nat|].
    print_step; [finish_prefix 2%nat | finish_prefix 3%nat].
  - stat_step; [finish_prefix 0%nat|].
    stat_step; [finish_prefix 0%nat|].
    print_step; [finish_prefix 0%nat|].
    print_step; [finish_prefix 1%nat|].
    print_step; [finish_prefix 2%nat | finish_prefix 3%nat].
Qed.

(** X13: whatever the environment does to [stat] and [print], the lines an
    accepted run adds to the standard output are the first [k] lines of
    its full summary, for some [k]: lines are printed in order, none is
    skipped, what was printed before is kept, and the sizes shown are
    those of the files the run left. *)
Theorem summary_output_is_a_prefix `{RandomSource} `{FileNames}
    (sc : scenario) (w : world) :
  accepted sc = true ->
  exists k,
    stdout (snd (run sc w)) =
    (stdout w ++ take k (summary_lines sc (fs (snd (run sc w)))))%list.
Proof.
  intros Hacc. rewrite (run_steps sc w Hacc).
  destruct (summary_prefix sc (written_world sc w))
    as (k & w' & Hrun & Hout & _ & Hfs & _).
  exists k. rewrite Hrun. cbn [snd]. now rewrite Hout, Hfs.
Qed.

Lemma summary_output_is_a_prefix_witness :
  exists k,
    stdout (snd (@run lcg posix_names (Convolution conv_3x3_2)
                   (set_env print_fails fresh_world))) =
    take k (@summary_lines posix_names (Convolution conv_3x3_2)
              (fs (snd (@run lcg posix_names (Convolution conv_3x3_2)
                          (set_env print_fails fresh_world))))).
Proof.
  apply (@summary_output_is_a_prefix lcg posix_names (Convolution conv_3x3_2)
           (set_env print_fails fresh_world)).
  reflexivity.
Defined.

Lemma all_chars_append p s1 s2 :
  all_chars p (s1 +:+ s2) = all_chars p s1 && all_chars p s2.
Proof.
  induction s1 as [|a s1 IH]; simpl; [reflexivity|].
  now rewrite IH, andb_assoc.
Qed.

Lemma str_file_chars (v : Z) : all_chars is_file_char (str v) = true.
Proof.
  pose proof (str_digits v) as Hd. induction (str v) as [|a s IH];
    simpl in *; [reflexivity|].
  apply andb_prop in Hd as [Ha Hs]. rewrite (IH Hs), andb_true_r.
  unfold is_file_char. now rewrite Ha.
Qed.

Lemma render_row_file_chars (row : list Z) :
  all_chars is_file_char (render_row row) = true.
Proof.
  unfold render_row. induction row as [|v rest IH]; [reflexivity|].
  destruct rest as [|v' rest']; [apply str_file_chars|].
  change (join " " (map str (v :: v' :: rest')))
    with (str v +:+ " " +:+ join " " (map str (v' :: rest'))).
  now rewrite !all_chars_append, str_file_chars, IH.
Qed.

Lemma render_rows_file_chars (rows : list (list Z)) :
  all_chars is_file_char (render_rows rows) = true.
Proof.
  unfold render_rows. induction rows as [|row rest IH]; [reflexivity|].
  cbn [map unlines].
  now rewrite !all_chars_append, render_row_file_chars, IH.
Qed.

(** X14: after an accepted run every party file consists of decimal
    digits, minus signs, single spaces and line feeds only; no other
    character is ever written. *)
Theorem party_files_are_plain_ascii `{RandomSource} `{FileNames}
    (sc : scenario) (w : world) :
  accepted sc = true ->
  forall p, In p (party_paths sc) ->
    exists c, fs (snd (run sc w)) !! file_of p = Some c
              /\ all_chars is_file_char c = true.
Proof.
  intros Hacc p Hp.
  destruct (run_accepted sc w Hacc) as (w' & Hrun & Hfs & _).
  rewrite Hrun. cbn [snd]. rewrite Hfs.
  apply party_targets_in in Hp.
  destruct (write_all_written _ _ Hp) as (c & Hc & Hlook).
  destruct (party_files_in _ _ _ Hc) as (rows & _ & ->).
  exists (render_rows rows). split; [apply Hlook|].
  apply render_rows_file_chars.
Qed.

Lemma party_files_are_plain_ascii_witness :
  exists c,
    fs (snd (@run lcg posix_names (LinearLayer linear_n_2) fresh_world))
      !! normpath "Player-Data/Input-P1-0" = Some c
    /\ all_chars is_file_char c = true.
Proof.
  apply (@party_files_are_plain_ascii lcg posix_names (LinearLayer linear_n_2) fresh_world).
  - reflexivity.
  - right. left. reflexivity.
Defined.
